(** * chatbot-project: the LLM service wrapper and the input helpers

    A shallow embedding of [src/utils/helpers.py] and
    [src/services/llm_service.py], and the properties of
    [sanitize_input] and [send_message] stated over it.

    Python values are modelled as follows.
    - [str] is a sequence of Unicode code points: [list N].  [len] is the
      number of code points and a literal is written [lit "..."].
    - a [dict] with string keys is a [gmap string PyVal].
    - [int] is [Z].  The readings of [time.time()] are kept as exact
      integers (clock ticks of an arbitrary fixed resolution); only their
      order and their differences are used by the code. *)

From Stdlib Require Import ZArith NArith List Ascii String DecimalString Lia.
From stdpp Require Import gmap strings list fin_maps.

Local Open Scope Z_scope.

(** ** Python strings *)

Module PyStr.

Abbreviation str := (list N).

(** A literal of the source, character by character. *)
Definition lit (s : string) : str :=
  List.map N_of_ascii (list_ascii_of_string s).

Definition len (s : str) : Z := Z.of_nat (length s).

(** Truth value of a [str]: the empty string is false. *)
Definition truthy (s : str) : bool :=
  match s with [] => false | _ :: _ => true end.

(** [str.isspace] on one code point, the table of CPython's
    [_PyUnicode_IsWhitespace]. *)
Definition isspace (c : N) : bool :=
  (((9 <=? c) && (c <=? 13)) || ((28 <=? c) && (c <=? 32))
   || (c =? 133) || (c =? 160) || (c =? 5760)
   || ((8192 <=? c) && (c <=? 8202))
   || (c =? 8232) || (c =? 8233) || (c =? 8239) || (c =? 8287)
   || (c =? 12288))%N.

Fixpoint lstrip (s : str) : str :=
  match s with
  | [] => []
  | c :: s' => if isspace c then lstrip s' else s
  end.

Definition rstrip (s : str) : str := rev (lstrip (rev s)).

(** [s.strip()] with no argument. *)
Definition strip (s : str) : str := lstrip (rstrip s).

(** [s.replace(old, new)] for a pattern [old] of one character. *)
Definition replace (old : N) (new : str) (s : str) : str :=
  flat_map (fun c => if (c =? old)%N then new else [c]) s.

(** [s[:n]] for [n >= 0]. *)
Definition slice_to (n : nat) (s : str) : str := firstn n s.

(** [s.endswith(suffix)]. *)
Definition endswith (s suffix : str) : bool :=
  bool_decide (skipn (length s - length suffix) s = suffix).

(** [str(n)] for an [int]: the decimal numeral, with a minus sign. *)
Definition of_int (n : Z) : str :=
  lit (NilZero.string_of_int (Z.to_int n)).

End PyStr.

Import PyStr.

(** ** [src/utils/helpers.py] *)

Module Helpers.

Definition c_amp : N := 38.  (* & *)
Definition c_lt : N := 60.   (* < *)
Definition c_gt : N := 62.   (* > *)
Definition c_dquote : N := 34.
Definition c_squote : N := 39.

(** [html.escape(s)] with [quote=True], the five replacements of the
    standard library in its order. *)
Definition html_escape (s : str) : str :=
  let s := replace c_amp (lit "&amp;") s in
  let s := replace c_lt (lit "&lt;") s in
  let s := replace c_gt (lit "&gt;") s in
  let s := replace c_dquote (lit "&quot;") s in
  let s := replace c_squote (lit "&#x27;") s in
  s.

(** Membership in the character class of the regular expression of
    [sanitize_input]: one of the four characters <, >, double quote,
    single quote. *)
Definition dangerous (c : N) : bool :=
  ((c =? c_lt) || (c =? c_gt) || (c =? c_dquote) || (c =? c_squote))%N.

(** [re.sub(class, '', text)]: every character of the class removed. *)
Definition re_sub_dangerous (text : str) : str :=
  List.filter (fun c => negb (dangerous c)) text.

Definition sanitize_input (text : str) : str :=
  if negb (truthy text) then []   (* the empty string *)
  else
    let text := html_escape text in
    let text := re_sub_dangerous text in
    let text :=
      if 4000 <? len text then slice_to 4000 text ++ lit "..." else text in
    strip text.

(** A character that [html.escape] rewrites. *)
Definition escaped (c : N) : bool :=
  ((c =? c_amp) || (c =? c_lt) || (c =? c_gt)
   || (c =? c_dquote) || (c =? c_squote))%N.

(** Plain text: no character that [html.escape] rewrites. *)
Definition plain (text : str) : bool := forallb (fun c => negb (escaped c)) text.

(** No character of the class is left. *)
Definition clean (text : str) : bool := forallb (fun c => negb (dangerous c)) text.

End Helpers.

(** ** The collaborators of [src/services/llm_service.py] *)

(** The part of the [openai] client library (version 1 and later, the one
    that has [openai.OpenAI] and [client.chat.completions.create]) that
    [send_message] relies on: its exception classes with their base
    classes, up to the built-in [Exception] and [BaseException], and the
    shape of a chat completion. *)
Module Openai.

Inductive ExcClass :=
| BaseException
| KeyboardInterrupt   (* derives from BaseException only *)
| SystemExit          (* derives from BaseException only *)
| Exception
| ValueError
| OtherException      (* any class outside [openai] that derives from Exception *)
| OpenAIError
| APIError
| APIResponseValidationError
| APIStatusError
| APIConnectionError
| APITimeoutError
| BadRequestError
| AuthenticationError
| PermissionDeniedError
| NotFoundError
| ConflictError
| UnprocessableEntityError
| RateLimitError
| InternalServerError.

#[global] Instance ExcClass_eq_dec : EqDecision ExcClass.
Proof. solve_decision. Defined.

(** The base class written in each class statement. *)
Definition base (c : ExcClass) : option ExcClass :=
  match c with
  | BaseException => None
  | KeyboardInterrupt | SystemExit | Exception => Some BaseException
  | ValueError | OtherException | OpenAIError => Some Exception
  | APIError => Some OpenAIError
  | APIResponseValidationError | APIStatusError | APIConnectionError =>
      Some APIError
  | APITimeoutError => Some APIConnectionError
  | BadRequestError | AuthenticationError | PermissionDeniedError
  | NotFoundError | ConflictError | UnprocessableEntityError
  | RateLimitError | InternalServerError => Some APIStatusError
  end.

(** The class and its ancestors, nearest first. *)
Fixpoint ancestors (fuel : nat) (c : ExcClass) : list ExcClass :=
  c :: match fuel with
       | O => []
       | S fuel' =>
           match base c with
           | Some b => ancestors fuel' b
           | None => []
           end
       end.

Definition mro (c : ExcClass) : list ExcClass := ancestors 6 c.

Definition issubclass (c d : ExcClass) : bool := bool_decide (d ∈ mro c).

(** A raised exception: its class and the text [str(e)]. *)
Record Exn := { exn_class : ExcClass; exn_str : str }.

Definition isinstance (e : Exn) (c : ExcClass) : bool :=
  issubclass (exn_class e) c.

Record ChatCompletionMessage := { content : option str }.
Record Choice := { message : option ChatCompletionMessage }.
Record CompletionUsage := { total_tokens : Z }.
Record ChatCompletion :=
  { choices : list Choice; usage : option CompletionUsage }.

(** The keyword arguments of [client.chat.completions.create]. *)
Record Request :=
  { req_model : str;
    req_messages : list (str * str);   (* role, content *)
    req_max_tokens : Z;
    req_timeout : Z }.

(** The client object that [openai.OpenAI(api_key=...)] builds. *)
Record Client := { client_api_key : str }.

(** What one call of [create] does: it returns or it raises. *)
Inductive Outcome :=
| Returns (r : ChatCompletion)
| Raises (e : Exn).

End Openai.

(** The settings that [send_message] reads from the class [Config] of the
    module [config]; the class itself is not among the sources, so the
    settings are a parameter of the model. *)
Record Config :=
  { OPENAI_API_KEY : str;
    MAX_MESSAGE_LENGTH : Z;
    MAX_RETRIES : Z;
    API_TIMEOUT : Z }.

(** Modelled from the spec: the invariant of a validated configuration,
    which the missing class [Config] is to establish: "credential must be
    non-empty; all numeric settings must be positive". *)
Definition config_invariant (cfg : Config) : bool :=
  truthy (OPENAI_API_KEY cfg)
  && (0 <? MAX_MESSAGE_LENGTH cfg) && (0 <? MAX_RETRIES cfg)
  && (0 <? API_TIMEOUT cfg).

(** ** Python values and effects *)

Inductive PyVal :=
| VNone
| VBool (b : bool)
| VInt (n : Z)
| VSeconds (ticks : Z)   (* a float: the difference of two clock readings *)
| VStr (s : str).

#[global] Instance PyVal_eq_dec : EqDecision PyVal.
Proof. solve_decision. Defined.

(** What the service does to the outside, in the order it happens. *)
Inductive Event :=
| EvCreate (rq : Openai.Request)   (* one network call *)
| EvSleep (seconds : Z)            (* [time.sleep] *)
| EvLogError (text : str).         (* [self.logger.error] *)

(** The outside: the outcome of the k-th network call (counted from 0)
    and the k-th reading of the wall clock. *)
Record World :=
  { api : nat -> Openai.Request -> Openai.Outcome;
    clock : nat -> Z }.

Record State :=
  { calls : nat;          (* network calls issued so far *)
    reads : nat;          (* clock readings taken so far *)
    trace : list Event }.

Definition initial : State := {| calls := 0; reads := 0; trace := [] |}.

(** A small state monad over [State]. *)
Module Eff.

Definition M (A : Type) : Type := State -> A * State.

Definition ret {A} (a : A) : M A := fun st => (a, st).

Definition bind {A B} (m : M A) (k : A -> M B) : M B :=
  fun st => let (a, st') := m st in k a st'.

Definition emit (ev : Event) : M unit :=
  fun st => (tt, {| calls := calls st; reads := reads st;
                    trace := trace st ++ [ev] |}).

End Eff.

Notation "'do' x <- m ; k" := (Eff.bind m (fun x => k))
  (at level 10, x name, m at level 100, k at level 200).
Notation "'run' m ; k" := (Eff.bind m (fun _ => k))
  (at level 10, m at level 100, k at level 200).

(** ** [src/services/llm_service.py] *)

Module LLMService.

Import Openai Eff.

Abbreviation Dict := (gmap string PyVal).

(** How a statement of the loop body ends: it falls through to the next
    iteration, it returns a dictionary, or an exception leaves it. *)
Inductive Flow :=
| Next
| Ret (d : Dict)
| Throw (e : Exn).

(** How a call of a method ends.  [Return None] is a body that runs off
    its end. *)
Inductive PyResult :=
| Return (d : option Dict)
| Raise (e : Exn).

(** [range(n)]: empty for [n <= 0]. *)
Definition range (n : Z) : list Z :=
  List.map Z.of_nat (seq 0 (Z.to_nat n)).

(** [for attempt in attempts: body], in a method with nothing after
    the loop. *)
Fixpoint for_in (attempts : list Z) (body : Z -> M Flow) : M PyResult :=
  match attempts with
  | [] => ret (Return None)
  | attempt :: rest =>
      do f <- body attempt;
      match f with
      | Next => for_in rest body
      | Ret d => ret (Return (Some d))
      | Throw e => ret (Raise e)
      end
  end.

(** The four [except] clauses of [send_message], in the order of the
    source. *)
Inductive Handler :=
| on_APIError
| on_RateLimitError
| on_AuthenticationError
| on_Exception.

Definition except_clauses : list (ExcClass * Handler) :=
  [ (APIError, on_APIError);
    (RateLimitError, on_RateLimitError);
    (AuthenticationError, on_AuthenticationError);
    (Exception, on_Exception) ].

(** A [try] statement runs the first clause whose class the exception
    is an instance of. *)
Fixpoint first_match (e : Exn) (clauses : list (ExcClass * Handler))
  : option Handler :=
  match clauses with
  | [] => None
  | (c, h) :: rest => if isinstance e c then Some h else first_match e rest
  end.

Definition default_model : str := lit "gpt-3.5-turbo".

(** [', '.join(missing)] *)
Fixpoint join (sep : str) (l : list str) : str :=
  match l with
  | [] => []
  | [x] => x
  | x :: rest => x ++ sep ++ join sep rest
  end.

(** The object that [__init__] builds: it holds the client. *)
Record Service := { client : Client }.

(** [LLMService.__init__].  The results of [Config.validate_config()]
    and [Config.get_missing_config()] are parameters: the two methods
    are not among the sources.  So is the constructor [openai.OpenAI] of
    the client, which returns the client or raises. *)
Definition init (cfg : Config) (validate_config : bool)
    (get_missing_config : list str) (OpenAI : str -> Exn + Client)
  : Exn + Service :=
  if negb validate_config then
    let missing := get_missing_config in
    inl {| exn_class := ValueError;
           exn_str := lit "Missing required configuration: "
                        ++ join (lit ", ") missing |}
  else
    match OpenAI (OPENAI_API_KEY cfg) with
    | inl e => inl e
    | inr c => inr {| client := c |}
    end.

Section Methods.

Variable cfg : Config.
Variable w : World.

(** [time.time()] *)
Definition time_time : M Z :=
  fun st => (clock w (reads st),
             {| calls := calls st; reads := S (reads st);
                trace := trace st |}).

(** [time.sleep(seconds)] *)
Definition time_sleep (seconds : Z) : M unit := emit (EvSleep seconds).

(** [self.logger.error(text)] *)
Definition logger_error (text : str) : M unit := emit (EvLogError text).

(** [self.client.chat.completions.create(...)] *)
Definition create (rq : Request) : M Outcome :=
  fun st => (api w (calls st) rq,
             {| calls := S (calls st); reads := reads st;
                trace := trace st ++ [EvCreate rq] |}).

(** One iteration of the loop of [send_message]: the [try] statement. *)
Definition attempt_body (message model : str) (start_time : Z)
    (attempt : Z) : M Flow :=
  do outcome <- create {| req_model := model;
                          req_messages := [(lit "user", message)];
                          req_max_tokens := 1000;
                          req_timeout := API_TIMEOUT cfg |};
  match outcome with
  | Returns response =>
      do now <- time_time;
      let response_time := now - start_time in
      match choices response with
      | c :: _ =>
          match Openai.message c with
          | Some m =>
              ret (Ret {[ "success" := VBool true;
                          "response" := match content m with
                                        | Some s => VStr s
                                        | None => VNone
                                        end;
                          "error" := VNone;
                          "response_time" := VSeconds response_time;
                          "model_used" := VStr model;
                          "tokens_used" := match usage response with
                                           | Some u => VInt (total_tokens u)
                                           | None => VNone
                                           end ]})
          | None =>
              ret (Ret {[ "success" := VBool false;
                          "response" := VNone;
                          "error" := VStr (lit "Empty response from API");
                          "response_time" := VSeconds response_time ]})
          end
      | [] =>
          ret (Ret {[ "success" := VBool false;
                      "response" := VNone;
                      "error" := VStr (lit "Empty response from API");
                      "response_time" := VSeconds response_time ]})
      end
  | Raises e =>
      match first_match e except_clauses with
      | Some on_APIError =>
          run logger_error (lit "OpenAI API error (attempt "
                              ++ of_int (attempt + 1) ++ lit "): "
                              ++ exn_str e);
          if attempt =? MAX_RETRIES cfg - 1 then
            do now <- time_time;
            ret (Ret {[ "success" := VBool false;
                        "response" := VNone;
                        "error" := VStr (lit "API Error: " ++ exn_str e);
                        "response_time" := VSeconds (now - start_time) ]})
          else
            run time_sleep 1;
            ret Next
      | Some on_RateLimitError =>
          run logger_error (lit "Rate limit exceeded (attempt "
                              ++ of_int (attempt + 1) ++ lit "): "
                              ++ exn_str e);
          if attempt =? MAX_RETRIES cfg - 1 then
            do now <- time_time;
            ret (Ret {[ "success" := VBool false;
                        "response" := VNone;
                        "error" := VStr (lit "Rate limit exceeded. Please try again later.");
                        "response_time" := VSeconds (now - start_time) ]})
          else
            run time_sleep 2;
            ret Next
      | Some on_AuthenticationError =>
          do now <- time_time;
          ret (Ret {[ "success" := VBool false;
                      "response" := VNone;
                      "error" := VStr (lit "Invalid API key. Please check your configuration.");
                      "response_time" := VSeconds (now - start_time) ]})
      | Some on_Exception =>
          run logger_error (lit "Unexpected error (attempt "
                              ++ of_int (attempt + 1) ++ lit "): "
                              ++ exn_str e);
          if attempt =? MAX_RETRIES cfg - 1 then
            do now <- time_time;
            ret (Ret {[ "success" := VBool false;
                        "response" := VNone;
                        "error" := VStr (lit "Unexpected error: " ++ exn_str e);
                        "response_time" := VSeconds (now - start_time) ]})
          else
            run time_sleep 1;
            ret Next
      | None => ret (Throw e)
      end
  end.

Definition send_message (message model : str) : M PyResult :=
  if negb (truthy message) || negb (truthy (strip message)) then
    ret (Return (Some {[ "success" := VBool false;
                         "response" := VNone;
                         "error" := VStr (lit "Empty message provided");
                         "response_time" := VInt 0 ]}))
  else if MAX_MESSAGE_LENGTH cfg <? len message then
    ret (Return (Some {[ "success" := VBool false;
                         "response" := VNone;
                         "error" := VStr (lit "Message too long. Maximum "
                                            ++ of_int (MAX_MESSAGE_LENGTH cfg)
                                            ++ lit " characters allowed.");
                         "response_time" := VInt 0 ]}))
  else
    do start_time <- time_time;
    for_in (range (MAX_RETRIES cfg))
           (attempt_body message model start_time).

Definition test_connection : M PyResult :=
  send_message (lit "Hello! This is a connection test.") default_model.

End Methods.

End LLMService.


(** ** Notions used by the statements *)

Module Obs.

Import Openai LLMService.

(** Empty, or nothing but whitespace: [not message or not message.strip()]. *)
Definition blank (message : str) : bool := forallb isspace message.

(** The network calls and the pauses of a trace, the log lines left out. *)
Inductive Tick :=
| Call
| Sleep (seconds : Z).

#[global] Instance Tick_eq_dec : EqDecision Tick.
Proof. solve_decision. Defined.

Fixpoint timeline (tr : list Event) : list Tick :=
  match tr with
  | [] => []
  | EvCreate _ :: tr' => Call :: timeline tr'
  | EvSleep n :: tr' => Sleep n :: timeline tr'
  | EvLogError _ :: tr' => timeline tr'
  end.

(** [n] calls, each followed by a pause of [seconds]. *)
Fixpoint retries (n : nat) (seconds : Z) : list Tick :=
  match n with
  | O => []
  | S n' => Call :: Sleep seconds :: retries n' seconds
  end.

(** [n + 1] calls with a pause of [seconds] between two of them. *)
Definition alternating (n : nat) (seconds : Z) : list Tick :=
  retries n seconds ++ [Call].

(** The request that [send_message] sends at every attempt. *)
Definition request_of (cfg : Config) (message model : str) : Request :=
  {| req_model := model;
     req_messages := [(lit "user", message)];
     req_max_tokens := 1000;
     req_timeout := API_TIMEOUT cfg |}.

(** A failure dictionary, the shape of every failure literal of
    [send_message]. *)
Definition failure (error : str) (response_time : PyVal) : Dict :=
  {[ "success" := VBool false;
     "response" := VNone;
     "error" := VStr error;
     "response_time" := response_time ]}.

Definition too_long_error (cfg : Config) : str :=
  lit "Message too long. Maximum " ++ of_int (MAX_MESSAGE_LENGTH cfg)
    ++ lit " characters allowed.".

(** A value is there: the key is bound, and not to [None]. *)
Definition populated (v : option PyVal) : bool :=
  match v with
  | None | Some VNone => false
  | Some _ => true
  end.

Definition nonneg (v : option PyVal) : bool :=
  match v with
  | Some (VInt n) => 0 <=? n
  | Some (VSeconds t) => 0 <=? t
  | _ => false
  end.

(** The invariant of a result record as the data model words it:
    response there iff success, error there iff failure, model_used
    there iff success, response_time not negative. *)
Definition record_invariant (d : Dict) : bool :=
  match d !! "success" with
  | Some (VBool b) =>
      eqb (populated (d !! "response")) b
      && eqb (populated (d !! "error")) (negb b)
      && eqb (populated (d !! "model_used")) b
      && nonneg (d !! "response_time")
  | _ => false
  end.

(** The same with the response left free on success: on failure the
    response is absent. *)
Definition record_invariant_on_failure (d : Dict) : bool :=
  match d !! "success" with
  | Some (VBool b) =>
      (b || negb (populated (d !! "response")))
      && eqb (populated (d !! "error")) (negb b)
      && eqb (populated (d !! "model_used")) b
      && nonneg (d !! "response_time")
  | _ => false
  end.

(** The success dictionary of [send_message]. *)
Definition success (response : option str) (response_time : Z)
    (model : str) (tokens : option Z) : Dict :=
  {[ "success" := VBool true;
     "response" := match response with Some s => VStr s | None => VNone end;
     "error" := VNone;
     "response_time" := VSeconds response_time;
     "model_used" := VStr model;
     "tokens_used" := match tokens with Some n => VInt n | None => VNone end ]}.

(** [response.usage.total_tokens if response.usage else None] *)
Definition reported_tokens (r : ChatCompletion) : option Z :=
  match usage r with Some u => Some (total_tokens u) | None => None end.

(** The state after one more network call, and after one more reading
    of the clock. *)
Definition called (rq : Request) (st : State) : State :=
  {| calls := S (calls st); reads := reads st;
     trace := trace st ++ [EvCreate rq] |}.

Definition read (st : State) : State :=
  {| calls := calls st; reads := S (reads st); trace := trace st |}.

Definition logged (ev : Event) (st : State) : State :=
  {| calls := calls st; reads := reads st; trace := trace st ++ [ev] |}.

(** The wall clock does not step backwards. *)
Definition monotone (w : World) : Prop :=
  forall i j : nat, (i <= j)%nat -> clock w i <= clock w j.

(** A completion without a first message: no choice at all, or a first
    choice whose message is [None].  This is the [else] branch of
    [send_message]. *)
Definition no_message (r : ChatCompletion) : bool :=
  match choices r with
  | [] => true
  | c :: _ => match Openai.message c with None => true | Some _ => false end
  end.

(** The content of the first message, when there is one. *)
Definition first_content (r : ChatCompletion) : option str :=
  match choices r with
  | [] => None
  | c :: _ => match Openai.message c with
              | None => None
              | Some m => content m
              end
  end.

(** The dictionaries that an attempt can return, when the clock was
    first read at its reading number [r0]: a failure, or the success
    built from a completion that the API returned.  The response time
    is the distance from the first reading to a later one. *)
Definition attempt_result (w : World) (rq : Request) (model : str)
    (r0 : nat) (d : Dict) : Prop :=
  exists k : nat,
    (r0 < k)%nat
    /\ ((exists error : str,
           d = failure error (VSeconds (clock w k - clock w r0)))
        \/ (exists (j : nat) (r : ChatCompletion),
              api w j rq = Returns r
              /\ no_message r = false
              /\ d = success (first_content r) (clock w k - clock w r0)
                      model (reported_tokens r))).

(** Every exception that the API raises derives from [Exception]. *)
Definition catchable (w : World) : Prop :=
  forall (k : nat) (rq : Request) (e : Exn),
    api w k rq = Raises e -> isinstance e Exception = true.

(** A dictionary has the fields of a result record, each with a value
    of its kind: a failure has success false, no response, an error text
    and a response time, and no other key; a success has success true, a
    response text or [None], no error, a measured response time, the model
    as a text and the token count or [None], and no other key. *)
Definition structured (d : Dict) : bool :=
  match d !! "success" with
  | Some (VBool false) =>
      bool_decide (dom d = ({[ "success"; "response"; "error";
                               "response_time" ]} : gset string))
      && match d !! "response" with Some VNone => true | _ => false end
      && match d !! "error" with Some (VStr _) => true | _ => false end
      && match d !! "response_time" with
         | Some (VInt 0) | Some (VSeconds _) => true
         | _ => false
         end
  | Some (VBool true) =>
      bool_decide (dom d = ({[ "success"; "response"; "error";
                               "response_time"; "model_used";
                               "tokens_used" ]} : gset string))
      && match d !! "response" with
         | Some (VStr _) | Some VNone => true
         | _ => false
         end
      && match d !! "error" with Some VNone => true | _ => false end
      && match d !! "response_time" with
         | Some (VSeconds _) => true
         | _ => false
         end
      && match d !! "model_used" with Some (VStr _) => true | _ => false end
      && match d !! "tokens_used" with
         | Some (VInt _) | Some VNone => true
         | _ => false
         end
  | _ => false
  end.

End Obs.

(** ** Concrete inputs *)

Module Samples.

Import Openai LLMService.

(** Inputs at which the statements about [sanitize_input] are evaluated. *)
Definition script_tag : str := lit "<script>alert('x')</script>".
Definition five_thousand_a : str := repeat 97%N 5000.

(** Inputs at which the statements about [send_message] are evaluated. *)
Definition cfg3 : Config :=
  {| OPENAI_API_KEY := lit "sk-test";
     MAX_MESSAGE_LENGTH := 4000;
     MAX_RETRIES := 3;
     API_TIMEOUT := 30 |}.

(** The same with a limit of two characters. *)
Definition cfg_short : Config :=
  {| OPENAI_API_KEY := lit "sk-test";
     MAX_MESSAGE_LENGTH := 2;
     MAX_RETRIES := 3;
     API_TIMEOUT := 30 |}.

Definition hi : str := lit "hi".
Definition three_spaces : str := lit "   ".

(** A clock that advances by one tick at every reading. *)
Definition ticking (k : nat) : Z := Z.of_nat k.

Definition slow_down : Exn :=
  {| exn_class := RateLimitError; exn_str := lit "slow down" |}.

Definition bad_key : Exn :=
  {| exn_class := AuthenticationError; exn_str := lit "bad key" |}.

(** The API answers every call with a rate-limit error. *)
Definition world_rate_limited : World :=
  {| api := fun _ _ => Raises slow_down; clock := ticking |}.

(** A [KeyboardInterrupt], whose text is empty. *)
Definition interrupt : Exn :=
  {| exn_class := KeyboardInterrupt; exn_str := [] |}.

(** The call is interrupted from the keyboard. *)
Definition world_interrupted : World :=
  {| api := fun _ _ => Raises interrupt; clock := ticking |}.

(** The API answers every call with an authentication error. *)
Definition world_unauthorized : World :=
  {| api := fun _ _ => Raises bad_key; clock := ticking |}.

(** The API answers with a greeting and reports twelve tokens. *)
Definition greeting : ChatCompletion :=
  {| choices := [ {| message := Some {| content := Some (lit "Hello!") |} |} ];
     usage := Some {| total_tokens := 12 |} |}.

Definition world_greeting : World :=
  {| api := fun _ _ => Returns greeting; clock := ticking |}.

(** The API answers with a message that has no content (as it does for
    a message that only carries a tool call or a refusal). *)
Definition contentless : ChatCompletion :=
  {| choices := [ {| message := Some {| content := None |} |} ];
     usage := Some {| total_tokens := 7 |} |}.

Definition world_contentless : World :=
  {| api := fun _ _ => Returns contentless; clock := ticking |}.

(** The API is rate limited once and then answers without any choice. *)
Definition choiceless : ChatCompletion :=
  {| choices := []; usage := None |}.

Definition world_choiceless_second : World :=
  {| api := fun k _ => match k with
                       | O => Raises slow_down
                       | _ => Returns choiceless
                       end;
     clock := ticking |}.

End Samples.

(** ** Notions used by the further properties *)

Module Run.

Import Helpers Openai LLMService Obs Samples.

(** What [html.escape] makes of one character. *)
Definition escape_char (c : N) : str :=
  if (c =? c_amp)%N then lit "&amp;"
  else if (c =? c_lt)%N then lit "&lt;"
  else if (c =? c_gt)%N then lit "&gt;"
  else if (c =? c_dquote)%N then lit "&quot;"
  else if (c =? c_squote)%N then lit "&#x27;"
  else [c].

(** The length limit of [sanitize_input]:
    [if len(text) > 4000: text = text[:4000] + "..."]. *)
Definition truncate (text : str) : str :=
  if 4000 <? len text then slice_to 4000 text ++ lit "..." else text.

(** Neither the first nor the last character is whitespace. *)
Definition edge_clean (s : str) : bool :=
  match s with [] => true | c :: _ => negb (isspace c) end
  && match rev s with [] => true | c :: _ => negb (isspace c) end.

(** Inputs of [sanitize_input]. *)
Definition many_lt : str := repeat c_lt 4001.
Definition many_spaces : str := repeat 32%N 4001.
Definition padded : str := lit "  plain text, 100% safe  ".
Definition quoted : str := lit "say 'hi' & <go>".

(** The head of the error text that the clause chosen for [e] builds. *)
Definition error_label (e : Exn) : str :=
  if isinstance e APIError then lit "API Error: "
  else lit "Unexpected error: ".

(** The line that the clause chosen for [e] logs at [attempt]. *)
Definition log_line (e : Exn) (attempt : Z) : str :=
  (if isinstance e APIError then lit "OpenAI API error (attempt "
   else lit "Unexpected error (attempt ")
  ++ of_int (attempt + 1) ++ lit "): " ++ exn_str e.

(** The events of successive attempts that raise [es] and are retried,
    the first of them being attempt number [attempt]: a call, a log
    line and a pause of one second each. *)
Fixpoint retry_events (rq : Request) (es : list Exn) (attempt : Z)
  : list Event :=
  match es with
  | [] => []
  | e :: es' =>
      EvCreate rq :: EvLogError (log_line e attempt) :: EvSleep 1
        :: retry_events rq es' (attempt + 1)
  end.

(** The call ends the run with an exception that no clause takes. *)
Definition escapes (o : Outcome) : bool :=
  match o with
  | Returns _ => false
  | Raises e => negb (isinstance e Exception)
  end.

(** The events of the attempt that ends a run, by its outcome. *)
Definition final_events (cfg : Config) (rq : Request) (o : Outcome)
  : list Event :=
  match o with
  | Returns _ => [EvCreate rq]
  | Raises e =>
      if isinstance e Exception
      then [EvCreate rq; EvLogError (log_line e (MAX_RETRIES cfg - 1))]
      else [EvCreate rq]
  end.

(** The dictionary that the attempt that ends a run returns, by its
    outcome, [t] being the time elapsed. *)
Definition outcome_dict (model : str) (t : Z) (o : Outcome) : Dict :=
  match o with
  | Returns r =>
      if no_message r then failure (lit "Empty response from API") (VSeconds t)
      else success (first_content r) t model (reported_tokens r)
  | Raises e => failure (error_label e ++ exn_str e) (VSeconds t)
  end.

Definition raises (o : Outcome) : bool :=
  match o with Raises _ => true | Returns _ => false end.

(** How the run ends, by the outcome of its last call: with the
    dictionary of [outcome_dict], or with the exception raised when no
    clause takes it. *)
Definition run_result (model : str) (t : Z) (o : Outcome) : PyResult :=
  match o with
  | Returns _ => Return (Some (outcome_dict model t o))
  | Raises e =>
      if isinstance e Exception then Return (Some (outcome_dict model t o))
      else Raise e
  end.

(** The clock readings of a run: one at the start, one more unless an
    exception leaves the run. *)
Definition run_reads (o : Outcome) : nat := if escapes o then 1 else 2.

(** The requests of the network calls of a trace. *)
Fixpoint requests (tr : list Event) : list Request :=
  match tr with
  | [] => []
  | EvCreate rq :: tr' => rq :: requests tr'
  | _ :: tr' => requests tr'
  end.

(** The error texts that [send_message] can put in a dictionary. *)
Definition known_error (cfg : Config) (error : str) : Prop :=
  error = lit "Empty message provided"
  \/ error = too_long_error cfg
  \/ error = lit "Empty response from API"
  \/ (exists text, error = lit "API Error: " ++ text)
  \/ (exists text, error = lit "Unexpected error: " ++ text).

(** The message of [test_connection]. *)
Definition connection_test : str := lit "Hello! This is a connection test.".

(** Further inputs of [send_message]. *)
Definition cfg_no_retry : Config :=
  {| OPENAI_API_KEY := lit "sk-test";
     MAX_MESSAGE_LENGTH := 4000;
     MAX_RETRIES := 0;
     API_TIMEOUT := 30 |}.

Definition cfg_tiny : Config :=
  {| OPENAI_API_KEY := lit "sk-test";
     MAX_MESSAGE_LENGTH := 10;
     MAX_RETRIES := 3;
     API_TIMEOUT := 30 |}.

Definition timed_out : Exn :=
  {| exn_class := APITimeoutError; exn_str := lit "timed out" |}.

Definition boom : Exn :=
  {| exn_class := OtherException; exn_str := lit "boom" |}.

(** The API times out, then fails outside the client, then greets. *)
Definition world_flaky : World :=
  {| api := fun k _ => match k with
                       | O => Raises timed_out
                       | S O => Raises boom
                       | _ => Returns greeting
                       end;
     clock := ticking |}.

(** The API is rate limited once and the second call is interrupted
    from the keyboard. *)
Definition world_interrupted_second : World :=
  {| api := fun k _ => match k with
                       | O => Raises slow_down
                       | _ => Raises interrupt
                       end;
     clock := ticking |}.

(** The API is rate limited once and then fails outside the client at
    every call. *)
Definition world_broken : World :=
  {| api := fun k _ => match k with
                       | O => Raises slow_down
                       | _ => Raises boom
                       end;
     clock := ticking |}.

End Run.

Import Helpers Openai LLMService Obs Samples.
Import Run.

(** ** Properties of [sanitize_input] *)

Section Strings.

Lemma In_lstrip (s : str) (c : N) : In c (lstrip s) -> In c s.
Proof.
  induction s as [|a s IH]; simpl; [tauto|].
  destruct (isspace a); simpl; tauto.
Qed.

Lemma In_strip (s : str) (c : N) : In c (strip s) -> In c s.
Proof.
  unfold strip, rstrip. intros H.
  apply In_lstrip in H. apply in_rev in H.
  apply In_lstrip in H. now apply in_rev in H.
Qed.

Lemma length_lstrip (s : str) : (length (lstrip s) <= length s)%nat.
Proof.
  induction s as [|a s IH]; simpl; [lia|].
  destruct (isspace a); simpl; lia.
Qed.

(** Whitespace in front of a text that starts with a printing character
    goes, the text stays. *)
Lemma lstrip_app (p q : str) (c : N) :
  isspace c = false ->
  exists p', lstrip (p ++ c :: q) = p' ++ c :: q
             /\ (length p' <= length p)%nat.
Proof.
  intros Hc. induction p as [|a p [p' [IH1 IH2]]]; simpl.
  - exists []. rewrite Hc. split; [reflexivity | simpl; lia].
  - destruct (isspace a).
    + exists p'. split; [assumption | lia].
    + exists (a :: p). split; [reflexivity | simpl; lia].
Qed.

Lemma rstrip_printing (p : str) (c : N) :
  isspace c = false -> rstrip (p ++ [c]) = p ++ [c].
Proof.
  intros Hc. unfold rstrip. rewrite rev_app_distr. simpl. rewrite Hc.
  simpl. now rewrite rev_involutive.
Qed.

Lemma strip_blank (s : str) : blank s = true <-> strip s = [].
Proof.
  assert (L : forall t : str, forallb isspace t = true <-> lstrip t = []).
  { induction t as [|a t IH]; simpl; [tauto|].
    destruct (isspace a); simpl; [exact IH | split; discriminate]. }
  unfold blank, strip, rstrip. split.
  - intros H. assert (R : lstrip (rev s) = []).
    { apply L. apply forallb_forall. intros x Hx. apply in_rev in Hx.
      rewrite forallb_forall in H. now apply H. }
    now rewrite R.
  - intros H. destruct (lstrip (rev s)) as [|a t] eqn:E.
    + apply L in E. apply forallb_forall. intros x Hx.
      rewrite forallb_forall in E. apply E. now apply in_rev in Hx.
    + exfalso. simpl in H.
      assert (Ha : isspace a = false).
      { clear H. revert E. generalize (rev s). intros u.
        induction u as [|b u IH]; simpl; [discriminate|].
        destruct (isspace b) eqn:Eb; [exact IH|].
        intros [= -> _]. exact Eb. }
      assert (K : lstrip (rev t ++ [a]) = []) by exact H.
      destruct (lstrip_app (rev t) [] a Ha) as [p' [K1 _]].
      rewrite K1 in K. destruct p'; discriminate.
Qed.

Lemma replace_absent (old : N) (new s : str) :
  (forall c, In c s -> (c =? old)%N = false) -> replace old new s = s.
Proof.
  induction s as [|a s IH]; intros H; [reflexivity|].
  unfold replace in *. simpl. rewrite (H a) by now left.
  simpl. f_equal. apply IH. intros c Hc. apply H. now right.
Qed.

End Strings.

Section Sanitize.

Lemma clean_In (t : str) :
  clean t = true <-> forall c, In c t -> dangerous c = false.
Proof.
  unfold clean. rewrite forallb_forall. split; intros H c Hc.
  - specialize (H c Hc). now destruct (dangerous c).
  - now rewrite (H c Hc).
Qed.

Lemma clean_re_sub (t : str) : clean (re_sub_dangerous t) = true.
Proof.
  apply clean_In. intros c Hc. unfold re_sub_dangerous in Hc.
  apply filter_In in Hc. destruct Hc as [_ Hc]. now destruct (dangerous c).
Qed.

Lemma clean_truncate (t : str) :
  clean t = true ->
  clean (if 4000 <? len t then slice_to 4000 t ++ lit "..." else t) = true.
Proof.
  intros H. destruct (4000 <? len t); [|assumption].
  rewrite clean_In in *. intros c Hc. apply in_app_or in Hc.
  destruct Hc as [Hc|Hc].
  - apply H. unfold slice_to in Hc. rewrite <- (firstn_skipn 4000 t).
    apply in_or_app. now left.
  - simpl in Hc. intuition (subst; reflexivity).
Qed.

Lemma clean_strip (t : str) : clean t = true -> clean (strip t) = true.
Proof.
  rewrite !clean_In. intros H c Hc. apply H. now apply In_strip.
Qed.

Lemma plain_html_escape (t : str) : plain t = true -> html_escape t = t.
Proof.
  unfold plain. rewrite forallb_forall. intros H.
  assert (K : forall c, In c t -> escaped c = false).
  { intros c Hc. specialize (H c Hc). now destruct (escaped c). }
  assert (R : forall old new, In old [c_amp; c_lt; c_gt; c_dquote; c_squote] ->
                replace old new t = t).
  { intros old new Hold. apply replace_absent. intros c Hc.
    specialize (K c Hc). unfold escaped in K.
    repeat (apply orb_false_elim in K; destruct K as [K ?]).
    simpl in Hold. intuition (subst; assumption). }
  unfold html_escape. cbv zeta.
  rewrite (R c_amp), (R c_lt), (R c_gt), (R c_dquote), (R c_squote);
    simpl; tauto.
Qed.

Lemma plain_re_sub (t : str) : plain t = true -> re_sub_dangerous t = t.
Proof.
  unfold plain, re_sub_dangerous. induction t as [|a t IH]; simpl;
    [reflexivity|].
  intros H. apply andb_prop in H. destruct H as [Ha Ht].
  assert (D : dangerous a = false).
  { unfold escaped in Ha. unfold dangerous.
    destruct ((a =? c_amp)%N); [discriminate|].
    simpl in Ha. now destruct ((a =? c_lt)%N || (a =? c_gt)%N
                               || (a =? c_dquote)%N || (a =? c_squote)%N). }
  rewrite D. simpl. f_equal. now apply IH.
Qed.

(** A text cut at 4000 characters and marked keeps the mark through
    [strip], and loses characters only. *)
Lemma strip_marked (p : str) :
  exists p', strip (p ++ lit "...") = p' ++ lit "..."
             /\ (length p' <= length p)%nat.
Proof.
  unfold strip.
  change (p ++ lit "...") with (p ++ [46%N; 46%N] ++ [46%N]).
  rewrite !app_assoc, rstrip_printing by reflexivity.
  rewrite <- !app_assoc. simpl.
  exact (lstrip_app p [46%N; 46%N] 46%N eq_refl).
Qed.

Lemma endswith_app (p q : str) : endswith (p ++ q) q = true.
Proof.
  unfold endswith. apply bool_decide_eq_true.
  rewrite length_app.
  replace (length p + length q - length q)%nat with (length p) by lia.
  apply drop_app_length.
Qed.

(** C8.  Whatever the input, the text that [sanitize_input] returns has
    none of the four characters <, >, double quote and single quote; and
    on the script tag of the specification the result is the escaped tag,
    in which none of them occurs. *)
Theorem sanitize_input_clean :
  (forall text : str, clean (sanitize_input text) = true)
  /\ sanitize_input script_tag
     = lit "&lt;script&gt;alert(&#x27;x&#x27;)&lt;/script&gt;"
  /\ clean (sanitize_input script_tag) = true.
Proof.
  assert (G : forall text : str, clean (sanitize_input text) = true).
  { intros text. unfold sanitize_input.
    destruct (negb (truthy text)); [reflexivity|].
    cbv zeta. apply clean_strip, clean_truncate, clean_re_sub. }
  split; [exact G|]. split; [vm_compute; reflexivity | apply G].
Qed.

(** C9.  A text of 5000 characters, none of which [html.escape]
    rewrites, comes back from [sanitize_input] with at most 4003
    characters and with the mark "..." at its end. *)
Theorem sanitize_input_truncates (text : str) :
  length text = 5000%nat ->
  plain text = true ->
  (length (sanitize_input text) <= 4003)%nat
  /\ endswith (sanitize_input text) (lit "...") = true.
Proof.
  intros Hlen Hplain. unfold sanitize_input.
  assert (T : truthy text = true) by (destruct text; [discriminate | reflexivity]).
  rewrite T. simpl negb. cbv iota zeta.
  rewrite (plain_html_escape _ Hplain), (plain_re_sub _ Hplain).
  assert (L : (4000 <? len text) = true).
  { apply Z.ltb_lt. unfold len. rewrite Hlen. lia. }
  rewrite L.
  destruct (strip_marked (slice_to 4000 text)) as [p' [-> Hp]].
  split.
  - rewrite length_app. unfold slice_to in Hp.
    rewrite length_firstn in Hp. simpl. lia.
  - apply endswith_app.
Qed.

Lemma sanitize_input_truncates_witness :
  (length (sanitize_input five_thousand_a) <= 4003)%nat
  /\ endswith (sanitize_input five_thousand_a) (lit "...") = true.
Proof.
  apply (sanitize_input_truncates five_thousand_a); vm_compute; reflexivity.
Defined.

End Sanitize.

(** ** Properties of [send_message] *)

Section Dispatch.

Variable cfg : Config.
Variable w : World.

(** *** The guards *)

Lemma guard_blank (message : str) :
  negb (truthy message) || negb (truthy (strip message)) = blank message.
Proof.
  destruct (blank message) eqn:B.
  - apply strip_blank in B. rewrite B. simpl. apply orb_true_r.
  - destruct message as [|a t]; [discriminate|]. simpl truthy.
    destruct (strip (a :: t)) eqn:S; [|reflexivity].
    apply strip_blank in S. congruence.
Qed.

Lemma send_message_blank (message model : str) (st : State) :
  blank message = true ->
  send_message cfg w message model st
  = (Return (Some (failure (lit "Empty message provided") (VInt 0))), st).
Proof.
  intros B. unfold send_message. rewrite guard_blank, B. reflexivity.
Qed.

Lemma send_message_too_long (message model : str) (st : State) :
  blank message = false ->
  MAX_MESSAGE_LENGTH cfg < len message ->
  send_message cfg w message model st
  = (Return (Some (failure (too_long_error cfg) (VInt 0))), st).
Proof.
  intros B L. unfold send_message. rewrite guard_blank, B.
  apply Z.ltb_lt in L. rewrite L. reflexivity.
Qed.

Lemma send_message_valid (message model : str) (st : State) :
  blank message = false ->
  len message <= MAX_MESSAGE_LENGTH cfg ->
  send_message cfg w message model st
  = for_in (range (MAX_RETRIES cfg))
      (attempt_body cfg w message model (clock w (reads st))) (read st).
Proof.
  intros B L. unfold send_message. rewrite guard_blank, B.
  apply Z.ltb_ge in L. rewrite L. reflexivity.
Qed.

(** *** The [except] clauses *)

(** An exception finds a clause exactly when its class derives from
    [Exception], and the clause is the first or the last one: the classes
    of the second and the third clause derive from the class of the
    first. *)
Lemma first_match_clauses (e : Exn) :
  first_match e except_clauses
  = if isinstance e Exception
    then Some (if isinstance e APIError then on_APIError else on_Exception)
    else None.
Proof. destruct e as [c s]. destruct c; reflexivity. Qed.

Lemma APIError_is_Exception (e : Exn) :
  isinstance e APIError = true -> isinstance e Exception = true.
Proof. destruct e as [c s]. destruct c; simpl; intros H; (reflexivity || discriminate H). Qed.

Lemma RateLimitError_is_APIError (e : Exn) :
  exn_class e = RateLimitError -> isinstance e APIError = true.
Proof. unfold isinstance. intros ->. reflexivity. Qed.

Lemma AuthenticationError_is_APIError (e : Exn) :
  exn_class e = AuthenticationError -> isinstance e APIError = true.
Proof. unfold isinstance. intros ->. reflexivity. Qed.

(** *** One attempt *)

Section Attempt.

Variables message model : str.
Variable start_time : Z.

Let rq := request_of cfg message model.
Let body := attempt_body cfg w message model start_time.

Lemma attempt_no_message (attempt : Z) (st : State) (r : ChatCompletion) :
  api w (calls st) rq = Returns r ->
  no_message r = true ->
  body attempt st
  = (Ret (failure (lit "Empty response from API")
            (VSeconds (clock w (reads st) - start_time))),
     read (called rq st)).
Proof.
  intros A E. unfold body, attempt_body, Eff.bind, create.
  fold (request_of cfg message model). fold rq. rewrite A.
  unfold no_message in E. unfold time_time, Eff.ret.
  destruct (choices r) as [|c cs]; [reflexivity|].
  destruct (Openai.message c); [discriminate | reflexivity].
Qed.

Lemma attempt_message (attempt : Z) (st : State) (r : ChatCompletion)
    (c : Choice) (cs : list Choice) (m : ChatCompletionMessage) :
  api w (calls st) rq = Returns r ->
  choices r = c :: cs ->
  Openai.message c = Some m ->
  body attempt st
  = (Ret (success (content m) (clock w (reads st) - start_time) model
            (reported_tokens r)),
     read (called rq st)).
Proof.
  intros A C M. unfold body, attempt_body, Eff.bind, create.
  fold (request_of cfg message model). fold rq. rewrite A.
  unfold time_time, Eff.ret. rewrite C, M.
  unfold success, reported_tokens.
  destruct (usage r); reflexivity.
Qed.

Lemma attempt_raises_last (attempt : Z) (st : State) (e : Exn) :
  api w (calls st) rq = Raises e ->
  isinstance e Exception = true ->
  attempt = MAX_RETRIES cfg - 1 ->
  exists (label : str) (line : str),
    label = (if isinstance e APIError then lit "API Error: "
             else lit "Unexpected error: ")
    /\ body attempt st
       = (Ret (failure (label ++ exn_str e)
                 (VSeconds (clock w (reads st) - start_time))),
          read (logged (EvLogError line) (called rq st))).
Proof.
  intros A X L. unfold body, attempt_body, Eff.bind, create.
  fold (request_of cfg message model). fold rq. rewrite A.
  rewrite first_match_clauses, X.
  apply Z.eqb_eq in L.
  destruct (isinstance e APIError); rewrite L;
    eexists; eexists; (split; [reflexivity|]); reflexivity.
Qed.

Lemma attempt_raises_retry (attempt : Z) (st : State) (e : Exn) :
  api w (calls st) rq = Raises e ->
  isinstance e Exception = true ->
  attempt <> MAX_RETRIES cfg - 1 ->
  exists line : str,
    body attempt st
    = (Next, logged (EvSleep 1) (logged (EvLogError line) (called rq st))).
Proof.
  intros A X L. unfold body, attempt_body, Eff.bind, create.
  fold (request_of cfg message model). fold rq. rewrite A.
  rewrite first_match_clauses, X.
  apply Z.eqb_neq in L.
  destruct (isinstance e APIError); rewrite L; eexists; reflexivity.
Qed.

(** An exception whose class does not derive from [Exception] finds no
    clause and leaves the attempt, at once: nothing is logged, the clock
    is not read, there is no pause. *)
Lemma attempt_raises_escapes (attempt : Z) (st : State) (e : Exn) :
  api w (calls st) rq = Raises e ->
  isinstance e Exception = false ->
  body attempt st = (Throw e, called rq st).
Proof.
  intros A X. unfold body, attempt_body, Eff.bind, create.
  fold (request_of cfg message model). fold rq. rewrite A.
  rewrite first_match_clauses, X. reflexivity.
Qed.

(** What an attempt can do, all cases together: it returns one of
    the dictionaries of [attempt_result], or it goes on to the next
    attempt, and then it is not the last one, or an exception that the
    API raised and whose class does not derive from [Exception] leaves it.
    The clock is read at most once. *)
Lemma attempt_flow (r0 : nat) (attempt : Z) (st : State) :
  start_time = clock w r0 ->
  (r0 < reads st)%nat ->
  match body attempt st with
  | (Ret d, _) => attempt_result w rq model r0 d
  | (Next, st') =>
      (r0 < reads st')%nat /\ attempt <> MAX_RETRIES cfg - 1
  | (Throw e, _) =>
      isinstance e Exception = false
      /\ exists k : nat, api w k rq = Raises e
  end.
Proof.
  intros S R. destruct (api w (calls st) rq) as [r|e] eqn:A.
  - destruct (no_message r) eqn:E.
    + rewrite (attempt_no_message attempt st r A E).
      exists (reads st). split; [exact R|]. left. rewrite S. eauto.
    + assert (C : exists c cs m, choices r = c :: cs
                                 /\ Openai.message c = Some m).
      { unfold no_message in E. destruct (choices r) as [|c cs];
          [discriminate|]. destruct (Openai.message c) as [m|] eqn:M;
          [|discriminate]. eauto. }
      destruct C as (c & cs & m & C & M).
      rewrite (attempt_message attempt st r c cs m A C M).
      exists (reads st). split; [exact R|]. right. exists (calls st), r.
      rewrite S. unfold first_content. rewrite C, M. auto.
  - destruct (isinstance e Exception) eqn:X.
    2:{ rewrite (attempt_raises_escapes attempt st e A X). eauto. }
    destruct (Z.eq_dec attempt (MAX_RETRIES cfg - 1)) as [L|L].
    + destruct (attempt_raises_last attempt st e A X L)
        as (label & line & _ & ->).
      exists (reads st). split; [exact R|]. left. rewrite S. eauto.
    + destruct (attempt_raises_retry attempt st e A X L) as [line ->].
      split; [exact R | exact L].
Qed.

End Attempt.

(** *** The loop *)

(** A [for] loop over [range(n)], [n] positive, whose body never goes
    past the last index, does not run off its end: it returns a
    dictionary that the body returned, or it is left by an exception that
    left the body. *)
Lemma for_in_range_returns (body : Z -> Eff.M Flow) (n : Z)
    (P : Dict -> Prop) (Q : Exn -> Prop) (I : State -> Prop) :
  0 < n ->
  (forall a st, I st ->
     match body a st with
     | (Ret d, _) => P d
     | (Next, st') => I st' /\ a <> n - 1
     | (Throw e, _) => Q e
     end) ->
  forall st, I st ->
    exists st',
      (exists d, for_in (range n) body st = (Return (Some d), st') /\ P d)
      \/ (exists e, for_in (range n) body st = (Raise e, st') /\ Q e).
Proof.
  intros Hn Hbody. unfold range.
  assert (G : forall (k i : nat), (i + k)%nat = Z.to_nat n -> (0 < k)%nat ->
              forall st, I st ->
              exists st',
                (exists d,
                   for_in (List.map Z.of_nat (seq i k)) body st
                   = (Return (Some d), st') /\ P d)
                \/ (exists e,
                      for_in (List.map Z.of_nat (seq i k)) body st
                      = (Raise e, st') /\ Q e)).
  { induction k as [|k IH]; intros i Hik Hk st Hst; [lia|].
    simpl. unfold Eff.bind. specialize (Hbody (Z.of_nat i) st Hst).
    destruct (body (Z.of_nat i) st) as [[|d|e] st1].
    - destruct Hbody as [Hst1 Hlast].
      destruct k as [|k']; [exfalso; apply Hlast; lia|].
      apply (IH (S i)); [lia | lia | exact Hst1].
    - exists st1. left. exists d. split; [reflexivity | exact Hbody].
    - exists st1. right. exists e. split; [reflexivity | exact Hbody]. }
  intros st Hst. apply (G (Z.to_nat n) 0%nat); [lia | lia | exact Hst].
Qed.

(** The loop of [send_message], as soon as one attempt is allowed,
    returns one of the dictionaries of [attempt_result], or is left by an
    exception that the API raised and whose class does not derive from
    [Exception]. *)
Lemma retry_loop_returns (message model : str) (st : State) :
  0 < MAX_RETRIES cfg ->
  exists st',
    (exists d,
       for_in (range (MAX_RETRIES cfg))
         (attempt_body cfg w message model (clock w (reads st))) (read st)
       = (Return (Some d), st')
       /\ attempt_result w (request_of cfg message model) model (reads st) d)
    \/ (exists e,
          for_in (range (MAX_RETRIES cfg))
            (attempt_body cfg w message model (clock w (reads st))) (read st)
          = (Raise e, st')
          /\ (isinstance e Exception = false
              /\ exists k : nat,
                   api w k (request_of cfg message model) = Raises e)).
Proof.
  intros Hn.
  apply (for_in_range_returns _ _ _ _ (fun s => (reads st < reads s)%nat) Hn).
  - intros a s Hs.
    exact (attempt_flow message model _ (reads st) a s eq_refl Hs).
  - simpl. lia.
Qed.

(** Without an allowed attempt the loop body never runs and the method
    runs off its end. *)
Lemma retry_loop_empty (body : Z -> Eff.M Flow) (st : State) :
  MAX_RETRIES cfg <= 0 ->
  for_in (range (MAX_RETRIES cfg)) body st = (Return None, st).
Proof.
  intros Hn. unfold range.
  replace (Z.to_nat (MAX_RETRIES cfg)) with 0%nat by lia. reflexivity.
Qed.

Lemma range_split (n : Z) (k : nat) :
  Z.of_nat k < n ->
  range n = List.map Z.of_nat (seq 0 k)
            ++ Z.of_nat k
               :: List.map Z.of_nat (seq (S k) (Z.to_nat n - S k)).
Proof.
  intros H. unfold range.
  replace (Z.to_nat n) with (k + S (Z.to_nat n - S k))%nat at 1 by lia.
  rewrite seq_app, map_app. reflexivity.
Qed.

Lemma timeline_app (tr tr' : list Event) :
  timeline (tr ++ tr') = timeline tr ++ timeline tr'.
Proof.
  induction tr as [|[rq|n|t] tr IH]; simpl; [reflexivity| | |];
    now rewrite IH.
Qed.

(** Attempts that raise what derives from [Exception], none of them the
    last one, are all retried after a pause of one second, whatever the
    class of the exception; the clock is not read. *)
Lemma raising_attempts_retried (message model : str) (start_time : Z) :
  forall (k i : nat) (rest : list Z) (st : State),
    (forall j, (j < k)%nat ->
       exists e, api w (calls st + j) (request_of cfg message model)
                 = Raises e
                 /\ isinstance e Exception = true) ->
    Z.of_nat (i + k) <= MAX_RETRIES cfg - 1 ->
    exists st_k,
      for_in (List.map Z.of_nat (seq i k) ++ rest)
        (attempt_body cfg w message model start_time) st
      = for_in rest (attempt_body cfg w message model start_time) st_k
      /\ calls st_k = (calls st + k)%nat
      /\ reads st_k = reads st
      /\ timeline (trace st_k) = timeline (trace st) ++ retries k 1.
Proof.
  induction k as [|k IH]; intros i rest st Hraise Hlast.
  - exists st. simpl. rewrite app_nil_r. repeat split; lia.
  - destruct (Hraise 0%nat ltac:(lia)) as [e [He Hx]].
    rewrite Nat.add_0_r in He.
    assert (L : Z.of_nat i <> MAX_RETRIES cfg - 1) by lia.
    destruct (attempt_raises_retry message model start_time _ st e He Hx L)
      as [line Hstep].
    simpl. unfold Eff.bind at 1. rewrite Hstep.
    set (st1 := logged (EvSleep 1) (logged (EvLogError line)
                  (called (request_of cfg message model) st))).
    destruct (IH (S i) rest st1) as (st_k & Hrun & Hc & Hr & Ht).
    + intros j Hj. destruct (Hraise (S j) ltac:(lia)) as [e' [He' Hx']].
      exists e'. split; [|exact Hx']. simpl. rewrite <- He'. f_equal. lia.
    + lia.
    + exists st_k. split; [exact Hrun|]. simpl in Hc, Hr, Ht.
      repeat split; [lia | exact Hr |].
      rewrite Ht, !timeline_app. simpl. rewrite <- !app_assoc. simpl.
      reflexivity.
Qed.

End Dispatch.

(** ** The claims about [send_message] *)

Section Claims.

Variable cfg : Config.
Variable w : World.

Lemma empty_is_not_too_long :
  lit "Empty message provided" <> too_long_error cfg.
Proof. unfold too_long_error. intros H. vm_compute in H. discriminate H. Qed.

(** C3, amended.  For a message that is empty or only whitespace,
    [send_message] returns the failure "Empty message provided" with a
    response time of 0 and leaves the state as it was: no network call.
    For a message that is not so and is longer than the configured
    limit, it returns the failure that cites the limit, with a response
    time of 0 and no network call. *)
Theorem send_message_validates (message model : str) (st : State) :
  (blank message = true ->
   send_message cfg w message model st
   = (Return (Some (failure (lit "Empty message provided") (VInt 0))), st))
  /\ (blank message = false ->
      MAX_MESSAGE_LENGTH cfg < len message ->
      send_message cfg w message model st
      = (Return (Some (failure (too_long_error cfg) (VInt 0))), st)).
Proof.
  split.
  - apply send_message_blank.
  - apply send_message_too_long.
Qed.

(** C10.  A message that is not empty, is only whitespace and is longer
    than the configured limit gets the failure "Empty message provided",
    whose error is not the one of the length check; no network call is
    made. *)
Theorem send_message_blank_before_length (message model : str) (st : State) :
  message <> [] ->
  blank message = true ->
  MAX_MESSAGE_LENGTH cfg < len message ->
  exists d,
    send_message cfg w message model st = (Return (Some d), st)
    /\ d !! "error" = Some (VStr (lit "Empty message provided"))
    /\ d !! "error" <> Some (VStr (too_long_error cfg)).
Proof.
  intros _ B _. eexists. split; [apply send_message_blank, B|].
  split; [reflexivity|].
  intros H. apply empty_is_not_too_long.
  change (failure (lit "Empty message provided") (VInt 0) !! "error")
    with (Some (VStr (lit "Empty message provided"))) in H.
  congruence.
Qed.

(** C4.  When the message is valid, one attempt at least is allowed and
    the first call returns a completion whose first choice has a message
    with content, [send_message] returns the success dictionary with that
    content, the model given, the token count if usage is reported, and
    the time between two readings of the clock; it has made one network
    call and nothing else. *)
Theorem send_message_first_attempt_success
    (message model : str) (st : State) (r : ChatCompletion)
    (c : Choice) (cs : list Choice) (m : ChatCompletionMessage) (s : str) :
  0 < MAX_RETRIES cfg ->
  blank message = false ->
  len message <= MAX_MESSAGE_LENGTH cfg ->
  api w (calls st) (request_of cfg message model) = Returns r ->
  choices r = c :: cs ->
  Openai.message c = Some m ->
  content m = Some s ->
  exists st',
    send_message cfg w message model st
    = (Return (Some (success (Some s)
                       (clock w (S (reads st)) - clock w (reads st))
                       model (reported_tokens r))), st')
    /\ calls st' = S (calls st)
    /\ trace st' = trace st ++ [EvCreate (request_of cfg message model)].
Proof.
  intros Hn B L A C M S.
  rewrite (send_message_valid cfg w message model st B L).
  rewrite (range_split (MAX_RETRIES cfg) 0) by lia.
  cbn [seq List.map app for_in]. unfold Eff.bind.
  rewrite (attempt_message cfg w message model _ _ (read st) r c cs m A C M).
  rewrite S. eexists. split; [reflexivity|]. split; reflexivity.
Qed.

(** C5, amended.  When an attempt, reached after any number of
    attempts that raised and were retried (the class of what they raised
    derives from [Exception]), gets a completion with no choice or with a
    first choice that has no message, [send_message] returns at once the
    failure "Empty response from API" with the time elapsed since the
    start; that call is the last one, whatever the number of attempts
    still allowed. *)
Theorem send_message_empty_response_terminal
    (message model : str) (st : State) (k : nat) (r : ChatCompletion) :
  blank message = false ->
  len message <= MAX_MESSAGE_LENGTH cfg ->
  Z.of_nat k < MAX_RETRIES cfg ->
  (forall j, (j < k)%nat ->
     exists e, api w (calls st + j) (request_of cfg message model)
               = Raises e
               /\ isinstance e Exception = true) ->
  api w (calls st + k) (request_of cfg message model) = Returns r ->
  no_message r = true ->
  exists st',
    send_message cfg w message model st
    = (Return (Some (failure (lit "Empty response from API")
                       (VSeconds (clock w (S (reads st))
                                  - clock w (reads st))))), st')
    /\ calls st' = (calls st + k + 1)%nat
    /\ timeline (trace st') = timeline (trace st) ++ alternating k 1.
Proof.
  intros B L Hk Hraise A E.
  rewrite (send_message_valid cfg w message model st B L).
  rewrite (range_split (MAX_RETRIES cfg) k Hk).
  destruct (raising_attempts_retried cfg w message model
              (clock w (reads st)) k 0
              (Z.of_nat k
               :: List.map Z.of_nat
                    (seq (S k) (Z.to_nat (MAX_RETRIES cfg) - S k)))
              (read st) Hraise ltac:(lia))
    as (st_k & -> & Hc & Hr & Ht).
  cbn [for_in]. unfold Eff.bind.
  simpl in Hc, Hr, Ht.
  rewrite <- Hc in A.
  rewrite (attempt_no_message cfg w message model _ _ st_k r A E).
  rewrite Hr. eexists. split; [reflexivity|].
  split; simpl; [lia|].
  rewrite timeline_app, Ht. unfold alternating.
  rewrite <- app_assoc. reflexivity.
Qed.

Lemma structured_failure (error : str) (t : PyVal) :
  (t = VInt 0 \/ exists ticks, t = VSeconds ticks) ->
  structured (failure error t) = true.
Proof.
  intros Ht. unfold structured.
  change (failure error t !! "success") with (Some (VBool false)).
  change (failure error t !! "response") with (Some VNone).
  change (failure error t !! "error") with (Some (VStr error)).
  change (failure error t !! "response_time") with (Some t).
  cbv iota. rewrite bool_decide_eq_true_2 by reflexivity.
  destruct Ht as [->|[ticks ->]]; reflexivity.
Qed.

Lemma structured_success (response : option str) (t : Z) (model : str)
    (tokens : option Z) :
  structured (success response t model tokens) = true.
Proof.
  unfold structured.
  change (success response t model tokens !! "success")
    with (Some (VBool true)).
  change (success response t model tokens !! "error") with (Some VNone).
  change (success response t model tokens !! "response_time")
    with (Some (VSeconds t)).
  change (success response t model tokens !! "model_used")
    with (Some (VStr model)).
  cbv iota. rewrite bool_decide_eq_true_2 by reflexivity.
  destruct response, tokens; reflexivity.
Qed.

(** C7, amended.  Under the invariant of the configuration, and when
    every exception that the API raises derives from [Exception],
    [send_message] returns a dictionary with the fields of a result
    record, for every message, every behaviour of the clock and every
    state: no exception leaves it and it does not run off its end.  The
    constructor raises [ValueError] when the validation of the
    configuration fails, and otherwise raises only what the constructor
    of the client raises. *)
Theorem send_message_returns_dict
    (message model : str) (st : State) :
  config_invariant cfg = true ->
  catchable w ->
  (exists d st',
     send_message cfg w message model st = (Return (Some d), st')
     /\ structured d = true)
  /\ (forall (missing : list str) (OpenAI : str -> Exn + Client),
        exists e, init cfg false missing OpenAI = inl e
                  /\ exn_class e = ValueError)
  /\ (forall (valid : bool) (missing : list str)
             (OpenAI : str -> Exn + Client) (e : Exn),
        init cfg valid missing OpenAI = inl e ->
        (valid = false /\ exn_class e = ValueError)
        \/ (valid = true /\ OpenAI (OPENAI_API_KEY cfg) = inl e)).
Proof.
  intros Hcfg Hw.
  assert (Hn : 0 < MAX_RETRIES cfg).
  { unfold config_invariant in Hcfg.
    repeat (apply andb_prop in Hcfg; destruct Hcfg as [Hcfg ?]). lia. }
  split; [|split].
  - destruct (blank message) eqn:B.
    { eexists; eexists. split; [apply send_message_blank, B|].
      apply structured_failure. now left. }
    destruct (Z.lt_ge_cases (MAX_MESSAGE_LENGTH cfg) (len message)) as [L|L].
    { eexists; eexists. split; [apply send_message_too_long; assumption|].
      apply structured_failure. now left. }
    rewrite (send_message_valid cfg w message model st B L).
    destruct (retry_loop_returns cfg w message model st Hn)
      as (st' & [(d & Hrun & k & _ & Hshape) | (e & _ & Hx & k & He)]).
    + exists d, st'. split; [exact Hrun|].
      destruct Hshape as [[error ->] | (j & r & _ & _ & ->)].
      * apply structured_failure. right. eauto.
      * apply structured_success.
    + apply Hw in He. congruence.
  - intros missing OpenAI. eexists. split; reflexivity.
  - intros valid missing OpenAI e. unfold init.
    destruct valid; simpl.
    + destruct (OpenAI (OPENAI_API_KEY cfg)) as [e'|c] eqn:E;
        [|discriminate]. intros [= <-]. right. split; reflexivity.
    + intros [= <-]. left. split; reflexivity.
Qed.

Lemma failure_invariant (error : str) (t : Z) :
  0 <= t -> record_invariant_on_failure (failure error (VSeconds t)) = true.
Proof.
  intros Ht. unfold record_invariant_on_failure.
  change (failure error (VSeconds t) !! "success") with (Some (VBool false)).
  change (failure error (VSeconds t) !! "response") with (Some VNone).
  change (failure error (VSeconds t) !! "error") with (Some (VStr error)).
  change (failure error (VSeconds t) !! "model_used") with (@None PyVal).
  change (failure error (VSeconds t) !! "response_time")
    with (Some (VSeconds t)).
  simpl. apply Z.leb_le. exact Ht.
Qed.

Lemma success_invariant (response : option str) (t : Z) (model : str)
    (tokens : option Z) :
  0 <= t ->
  record_invariant_on_failure (success response t model tokens) = true.
Proof.
  intros Ht. unfold record_invariant_on_failure.
  change (success response t model tokens !! "success")
    with (Some (VBool true)).
  change (success response t model tokens !! "error") with (Some VNone).
  change (success response t model tokens !! "model_used")
    with (Some (VStr model)).
  change (success response t model tokens !! "response_time")
    with (Some (VSeconds t)).
  simpl. apply Z.leb_le. exact Ht.
Qed.

(** C6, amended.  With a clock that does not step backwards, every
    dictionary that [send_message] returns has: an error iff success is
    false; no response when success is false; model_used iff success is
    true; a response time that is not negative.  When success is true the
    response is the content of the first message of a completion that the
    API returned, and is [None] when that message has no content. *)
Theorem send_message_record_invariant
    (message model : str) (st st' : State) (d : Dict) :
  monotone w ->
  send_message cfg w message model st = (Return (Some d), st') ->
  record_invariant_on_failure d = true
  /\ (d !! "success" = Some (VBool true) ->
      exists (j : nat) (r : ChatCompletion),
        api w j (request_of cfg message model) = Returns r
        /\ d !! "response" = Some (match first_content r with
                                   | Some s => VStr s
                                   | None => VNone
                                   end)).
Proof.
  intros Hmono Hrun.
  destruct (blank message) eqn:B.
  { rewrite (send_message_blank cfg w message model st B) in Hrun.
    injection Hrun as <- _. split; [reflexivity | discriminate]. }
  destruct (Z.lt_ge_cases (MAX_MESSAGE_LENGTH cfg) (len message)) as [L|L].
  { rewrite (send_message_too_long cfg w message model st B L) in Hrun.
    injection Hrun as <- _. split; [reflexivity | discriminate]. }
  rewrite (send_message_valid cfg w message model st B L) in Hrun.
  destruct (Z.le_gt_cases (MAX_RETRIES cfg) 0) as [Hn|Hn].
  { rewrite (retry_loop_empty cfg _ _ Hn) in Hrun. discriminate Hrun. }
  destruct (retry_loop_returns cfg w message model st ltac:(lia))
    as (st0 & [(d0 & Hrun0 & k & Hk & Hshape) | (e & Hrun0 & _)]);
    [|rewrite Hrun0 in Hrun; discriminate Hrun].
  rewrite Hrun0 in Hrun. injection Hrun as -> _.
  assert (Ht : 0 <= clock w k - clock w (reads st)).
  { specialize (Hmono (reads st) k ltac:(lia)). lia. }
  destruct Hshape as [[error ->] | (j & r & A & E & ->)].
  - split; [apply failure_invariant, Ht | discriminate].
  - split; [apply success_invariant, Ht|].
    intros _. exists j, r. split; [exact A|].
    destruct (first_content r); reflexivity.
Qed.

(** When every call raises an exception of a class that derives from
    [APIError], every allowed attempt is made, with a pause of one second
    after each but the last, and the failure returned is the one of the
    first [except] clause. *)
Lemma api_errors_every_attempt
    (message model : str) (st : State) (exn : nat -> Exn) :
  0 < MAX_RETRIES cfg ->
  blank message = false ->
  len message <= MAX_MESSAGE_LENGTH cfg ->
  (forall j, api w (calls st + j) (request_of cfg message model)
             = Raises (exn j)) ->
  (forall j, isinstance (exn j) APIError = true) ->
  exists st',
    send_message cfg w message model st
    = (Return (Some (failure
                       (lit "API Error: "
                        ++ exn_str (exn (Z.to_nat (MAX_RETRIES cfg) - 1)%nat))
                       (VSeconds (clock w (S (reads st))
                                  - clock w (reads st))))), st')
    /\ calls st' = (calls st + Z.to_nat (MAX_RETRIES cfg))%nat
    /\ timeline (trace st')
       = timeline (trace st)
         ++ alternating (Z.to_nat (MAX_RETRIES cfg) - 1) 1.
Proof.
  intros Hn B L Hraise Hclass.
  set (k := (Z.to_nat (MAX_RETRIES cfg) - 1)%nat).
  assert (Hk : Z.of_nat k = MAX_RETRIES cfg - 1) by lia.
  rewrite (send_message_valid cfg w message model st B L).
  rewrite (range_split (MAX_RETRIES cfg) k) by lia.
  replace (Z.to_nat (MAX_RETRIES cfg) - S k)%nat with 0%nat by lia.
  change (List.map Z.of_nat (seq (S k) 0)) with (@nil Z).
  destruct (raising_attempts_retried cfg w message model
              (clock w (reads st)) k 0 [Z.of_nat k] (read st)
              ltac:(intros j _; eexists; split;
                      [apply Hraise | apply APIError_is_Exception, Hclass])
              ltac:(lia))
    as (st_k & -> & Hc & Hr & Ht).
  cbn [for_in]. unfold Eff.bind.
  simpl in Hc, Hr, Ht.
  specialize (Hraise k). rewrite <- Hc in Hraise.
  destruct (attempt_raises_last cfg w message model (clock w (reads st))
              (Z.of_nat k) st_k (exn k) Hraise
              (APIError_is_Exception _ (Hclass k)) Hk)
    as (label & line & -> & ->).
  rewrite Hclass, Hr. eexists. split; [reflexivity|].
  split; simpl; [lia|].
  rewrite !timeline_app, Ht. unfold alternating. simpl.
  rewrite app_nil_r, <- app_assoc. reflexivity.
Qed.

(** C1, as the code behaves.  When every call raises [RateLimitError],
    [send_message] makes as many calls as attempts are allowed, but the
    exception is caught by the clause for [APIError], from which
    [RateLimitError] derives and which comes first: the pause between two
    attempts is one second, not two, and the error returned is
    "API Error: " followed by the text of the last exception, not the
    message of the rate limit. *)
Theorem send_message_rate_limited
    (message model : str) (st : State) (exn : nat -> Exn) :
  0 < MAX_RETRIES cfg ->
  blank message = false ->
  len message <= MAX_MESSAGE_LENGTH cfg ->
  (forall j, api w (calls st + j) (request_of cfg message model)
             = Raises (exn j)) ->
  (forall j, exn_class (exn j) = RateLimitError) ->
  exists (st' : State) (error : str),
    send_message cfg w message model st
    = (Return (Some (failure error
                       (VSeconds (clock w (S (reads st))
                                  - clock w (reads st))))), st')
    /\ error = lit "API Error: "
               ++ exn_str (exn (Z.to_nat (MAX_RETRIES cfg) - 1)%nat)
    /\ error <> lit "Rate limit exceeded. Please try again later."
    /\ calls st' = (calls st + Z.to_nat (MAX_RETRIES cfg))%nat
    /\ timeline (trace st')
       = timeline (trace st)
         ++ alternating (Z.to_nat (MAX_RETRIES cfg) - 1) 1.
Proof.
  intros Hn B L Hraise Hclass.
  destruct (api_errors_every_attempt message model st exn Hn B L Hraise)
    as (st' & Hrun & Hc & Ht).
  { intros j. apply RateLimitError_is_APIError, Hclass. }
  exists st'. eexists. split; [exact Hrun|].
  split; [reflexivity|]. split; [|split; assumption].
  intros H. vm_compute in H. discriminate H.
Qed.

(** C2, as the code behaves.  When every call raises
    [AuthenticationError], beginning with the first one, [send_message]
    does not stop at the first call: the exception is caught by the
    clause for [APIError], from which [AuthenticationError] derives and
    which comes first, so every allowed attempt is made with a pause of
    one second between two of them, and the error returned is
    "API Error: " followed by the text of the last exception, not the
    message of the invalid key. *)
Theorem send_message_unauthorized
    (message model : str) (st : State) (exn : nat -> Exn) :
  0 < MAX_RETRIES cfg ->
  blank message = false ->
  len message <= MAX_MESSAGE_LENGTH cfg ->
  (forall j, api w (calls st + j) (request_of cfg message model)
             = Raises (exn j)) ->
  (forall j, exn_class (exn j) = AuthenticationError) ->
  exists (st' : State) (error : str),
    send_message cfg w message model st
    = (Return (Some (failure error
                       (VSeconds (clock w (S (reads st))
                                  - clock w (reads st))))), st')
    /\ error = lit "API Error: "
               ++ exn_str (exn (Z.to_nat (MAX_RETRIES cfg) - 1)%nat)
    /\ error <> lit "Invalid API key. Please check your configuration."
    /\ calls st' = (calls st + Z.to_nat (MAX_RETRIES cfg))%nat
    /\ timeline (trace st')
       = timeline (trace st)
         ++ alternating (Z.to_nat (MAX_RETRIES cfg) - 1) 1.
Proof.
  intros Hn B L Hraise Hclass.
  destruct (api_errors_every_attempt message model st exn Hn B L Hraise)
    as (st' & Hrun & Hc & Ht).
  { intros j. apply AuthenticationError_is_APIError, Hclass. }
  exists st'. eexists. split; [exact Hrun|].
  split; [reflexivity|]. split; [|split; assumption].
  intros H. vm_compute in H. discriminate H.
Qed.

(** The clauses for [RateLimitError] and [AuthenticationError] are never
    chosen. *)
Lemma specific_clauses_unreachable (e : Exn) :
  first_match e except_clauses <> Some on_RateLimitError
  /\ first_match e except_clauses <> Some on_AuthenticationError.
Proof.
  rewrite first_match_clauses.
  destruct (isinstance e Exception), (isinstance e APIError);
    split; discriminate.
Qed.

End Claims.

(** ** The statements at concrete inputs *)

Section Evaluations.

Lemma ticking_monotone (w : World) : clock w = ticking -> monotone w.
Proof. intros E i j H. rewrite E. unfold ticking. lia. Defined.

Lemma send_message_rate_limited_witness :
  exists (st' : State) (error : str),
    send_message cfg3 world_rate_limited hi default_model initial
    = (Return (Some (failure error (VSeconds (ticking 1 - ticking 0)))), st')
    /\ error = lit "API Error: " ++ lit "slow down"
    /\ error <> lit "Rate limit exceeded. Please try again later."
    /\ calls st' = 3%nat
    /\ timeline (trace st') = [Call; Sleep 1; Call; Sleep 1; Call].
Proof.
  apply (send_message_rate_limited cfg3 world_rate_limited hi default_model
           initial (fun _ => slow_down)).
  - reflexivity.
  - reflexivity.
  - vm_compute. discriminate.
  - intros j. reflexivity.
  - intros j. reflexivity.
Defined.

Lemma send_message_unauthorized_witness :
  exists (st' : State) (error : str),
    send_message cfg3 world_unauthorized hi default_model initial
    = (Return (Some (failure error (VSeconds (ticking 1 - ticking 0)))), st')
    /\ error = lit "API Error: " ++ lit "bad key"
    /\ error <> lit "Invalid API key. Please check your configuration."
    /\ calls st' = 3%nat
    /\ timeline (trace st') = [Call; Sleep 1; Call; Sleep 1; Call].
Proof.
  apply (send_message_unauthorized cfg3 world_unauthorized hi default_model
           initial (fun _ => bad_key)).
  - reflexivity.
  - reflexivity.
  - vm_compute. discriminate.
  - intros j. reflexivity.
  - intros j. reflexivity.
Defined.

Lemma send_message_validates_witness :
  send_message cfg_short world_greeting three_spaces default_model initial
  = (Return (Some (failure (lit "Empty message provided") (VInt 0))), initial)
  /\ send_message cfg_short world_greeting (lit "abc") default_model initial
     = (Return (Some (failure (lit "Message too long. Maximum 2 characters allowed.")
                        (VInt 0))), initial).
Proof.
  split.
  - apply (proj1 (send_message_validates cfg_short world_greeting
                    three_spaces default_model initial)).
    reflexivity.
  - apply (proj2 (send_message_validates cfg_short world_greeting
                    (lit "abc") default_model initial)).
    + reflexivity.
    + reflexivity.
Defined.

(** C3 as it is stated fails on a message of three spaces under a limit
    of two characters: the message is longer than the limit, and the
    error is the one of the empty message, which does not cite the
    limit. *)
Lemma over_length_whitespace_reported_empty :
  MAX_MESSAGE_LENGTH cfg_short < len three_spaces
  /\ exists d,
       send_message cfg_short world_greeting three_spaces default_model initial
       = (Return (Some d), initial)
       /\ d !! "error" = Some (VStr (lit "Empty message provided"))
       /\ d !! "error" <> Some (VStr (too_long_error cfg_short)).
Proof.
  split; [reflexivity|].
  eexists. split; [vm_compute; reflexivity|].
  split; [vm_compute; reflexivity|].
  vm_compute. discriminate.
Qed.

Lemma send_message_blank_before_length_witness :
  exists d,
    send_message cfg_short world_greeting three_spaces default_model initial
    = (Return (Some d), initial)
    /\ d !! "error" = Some (VStr (lit "Empty message provided"))
    /\ d !! "error" <> Some (VStr (too_long_error cfg_short)).
Proof.
  apply (send_message_blank_before_length cfg_short world_greeting
           three_spaces default_model initial).
  - vm_compute. discriminate.
  - reflexivity.
  - reflexivity.
Defined.

Lemma send_message_first_attempt_success_witness :
  exists st',
    send_message cfg3 world_greeting hi default_model initial
    = (Return (Some (success (Some (lit "Hello!")) (ticking 1 - ticking 0)
                       default_model (Some 12))), st')
    /\ calls st' = 1%nat
    /\ trace st' = [EvCreate (request_of cfg3 hi default_model)].
Proof.
  apply (send_message_first_attempt_success cfg3 world_greeting hi
           default_model initial greeting
           {| message := Some {| content := Some (lit "Hello!") |} |} []
           {| content := Some (lit "Hello!") |} (lit "Hello!")).
  - reflexivity.
  - reflexivity.
  - vm_compute. discriminate.
  - reflexivity.
  - reflexivity.
  - reflexivity.
  - reflexivity.
Defined.

Lemma send_message_empty_response_terminal_witness :
  exists st',
    send_message cfg3 world_choiceless_second hi default_model initial
    = (Return (Some (failure (lit "Empty response from API")
                       (VSeconds (ticking 1 - ticking 0)))), st')
    /\ calls st' = 2%nat
    /\ timeline (trace st') = [Call; Sleep 1; Call].
Proof.
  apply (send_message_empty_response_terminal cfg3 world_choiceless_second
           hi default_model initial 1 choiceless).
  - reflexivity.
  - vm_compute. discriminate.
  - reflexivity.
  - intros j Hj. exists slow_down.
    destruct j as [|j]; [split; reflexivity | lia].
  - reflexivity.
  - reflexivity.
Defined.

(** C5 as it is stated fails on a completion whose first message has no
    content: the first message is there, so [send_message] reports a
    success, with no response and no error. *)
Lemma contentless_response_is_success :
  first_content contentless = None
  /\ exists d st',
       send_message cfg3 world_contentless hi default_model initial
       = (Return (Some d), st')
       /\ d !! "success" = Some (VBool true)
       /\ d !! "response" = Some VNone
       /\ d !! "error" = Some VNone
       /\ d !! "error" <> Some (VStr (lit "Empty response from API")).
Proof.
  split; [reflexivity|].
  eexists; eexists. split; [vm_compute; reflexivity|].
  repeat split; try (vm_compute; reflexivity).
  vm_compute. discriminate.
Qed.

Lemma send_message_record_invariant_witness :
  exists d st',
    send_message cfg3 world_greeting hi default_model initial
    = (Return (Some d), st')
    /\ record_invariant_on_failure d = true
    /\ (d !! "success" = Some (VBool true) ->
        exists (j : nat) (r : ChatCompletion),
          api world_greeting j (request_of cfg3 hi default_model) = Returns r
          /\ d !! "response" = Some (match first_content r with
                                     | Some s => VStr s
                                     | None => VNone
                                     end)).
Proof.
  eexists; eexists. split; [vm_compute; reflexivity|].
  eapply (send_message_record_invariant cfg3 world_greeting hi default_model
            initial).
  - apply ticking_monotone. reflexivity.
  - vm_compute. reflexivity.
Defined.

(** C6 as it is stated fails on a completion whose first message has no
    content, under a clock that does not step backwards: the dictionary
    returned has success true and neither a response nor an error. *)
Lemma contentless_breaks_record_invariant :
  monotone world_contentless
  /\ exists d st',
       send_message cfg3 world_contentless hi default_model initial
       = (Return (Some d), st')
       /\ d !! "success" = Some (VBool true)
       /\ populated (d !! "response") = false
       /\ record_invariant d = false.
Proof.
  split; [apply ticking_monotone; reflexivity|].
  eexists; eexists. split; [vm_compute; reflexivity|].
  repeat split; vm_compute; reflexivity.
Qed.

Lemma send_message_returns_dict_witness :
  (exists d st',
     send_message cfg3 world_rate_limited hi default_model initial
     = (Return (Some d), st')
     /\ structured d = true)
  /\ (forall (missing : list str) (OpenAI : str -> Exn + Client),
        exists e, init cfg3 false missing OpenAI = inl e
                  /\ exn_class e = ValueError)
  /\ (forall (valid : bool) (missing : list str)
             (OpenAI : str -> Exn + Client) (e : Exn),
        init cfg3 valid missing OpenAI = inl e ->
        (valid = false /\ exn_class e = ValueError)
        \/ (valid = true /\ OpenAI (OPENAI_API_KEY cfg3) = inl e)).
Proof.
  apply (send_message_returns_dict cfg3 world_rate_limited hi default_model
           initial).
  - reflexivity.
  - intros k rq e H. simpl in H. injection H as <-. reflexivity.
Defined.

(** C7 as it is stated fails on an exception whose class does not derive
    from [Exception]: under a configuration that satisfies the invariant,
    a [KeyboardInterrupt] raised by the first call finds no clause and
    leaves [send_message], after one call, with nothing logged. *)
Lemma keyboard_interrupt_escapes :
  config_invariant cfg3 = true
  /\ isinstance interrupt Exception = false
  /\ send_message cfg3 world_interrupted hi default_model initial
     = (Raise interrupt,
        called (request_of cfg3 hi default_model) (read initial)).
Proof. repeat split. Qed.

End Evaluations.

(** ** Further properties of [sanitize_input] *)

Section SanitizeMore.

Lemma replace_flat_map (old : N) (new : str) (f : N -> str) (s : str) :
  replace old new (flat_map f s)
  = flat_map (fun c => replace old new (f c)) s.
Proof.
  unfold replace. induction s as [|a s IH]; simpl; [reflexivity|].
  now rewrite flat_map_app, IH.
Qed.

Lemma replace_one (old : N) (new : str) (c : N) :
  replace old new [c] = if (c =? old)%N then new else [c].
Proof. unfold replace. simpl. destruct (c =? old)%N; apply app_nil_r. Qed.

(** The five replacements of [html.escape], one after the other, amount
    to one pass that rewrites each character on its own: the ampersand
    is replaced first, and no replacement text holds a character that a
    later replacement rewrites. *)
Lemma html_escape_one_pass (text : str) :
  html_escape text = flat_map escape_char text.
Proof.
  unfold html_escape. cbv zeta.
  replace (replace c_amp (lit "&amp;") text)
    with (flat_map (fun c => replace c_amp (lit "&amp;") [c]) text).
  2:{ unfold replace at 2. apply flat_map_ext. intros c. apply replace_one. }
  rewrite !replace_flat_map. apply flat_map_ext. intros c.
  unfold escape_char. rewrite replace_one.
  destruct (c =? c_amp)%N; [reflexivity|]. rewrite replace_one.
  destruct (c =? c_lt)%N; [reflexivity|]. rewrite replace_one.
  destruct (c =? c_gt)%N; [reflexivity|]. rewrite replace_one.
  destruct (c =? c_dquote)%N; [reflexivity|]. rewrite replace_one.
  destruct (c =? c_squote)%N; reflexivity.
Qed.

Lemma escape_char_clean (c : N) : clean (escape_char c) = true.
Proof.
  unfold escape_char.
  destruct (c =? c_amp)%N; [reflexivity|].
  destruct (c =? c_lt)%N eqn:E1; [reflexivity|].
  destruct (c =? c_gt)%N eqn:E2; [reflexivity|].
  destruct (c =? c_dquote)%N eqn:E3; [reflexivity|].
  destruct (c =? c_squote)%N eqn:E4; [reflexivity|].
  unfold clean, dangerous. simpl. now rewrite E1, E2, E3, E4.
Qed.

Lemma escape_char_length (c : N) :
  (1 <= length (escape_char c) <= 6)%nat.
Proof.
  unfold escape_char.
  repeat match goal with
         | |- context [if ?b then _ else _] => destruct b
         end; simpl; lia.
Qed.

Lemma html_escape_clean (text : str) : clean (html_escape text) = true.
Proof.
  rewrite html_escape_one_pass. unfold clean.
  induction text as [|a t IH]; simpl; [reflexivity|].
  rewrite forallb_app, IH. fold (clean (escape_char a)).
  now rewrite escape_char_clean.
Qed.

Lemma html_escape_length (text : str) :
  (length text <= length (html_escape text) <= 6 * length text)%nat.
Proof.
  rewrite html_escape_one_pass.
  induction text as [|a t IH]; [simpl; lia|].
  cbn [flat_map]. rewrite length_app. cbn [length].
  pose proof (escape_char_length a). lia.
Qed.

Lemma filter_all (f : N -> bool) (s : str) :
  forallb f s = true -> List.filter f s = s.
Proof.
  induction s as [|a s IH]; simpl; [reflexivity|].
  intros H. apply andb_prop in H. destruct H as [Ha Hs].
  rewrite Ha. f_equal. now apply IH.
Qed.

Lemma re_sub_html_escape (text : str) :
  re_sub_dangerous (html_escape text) = html_escape text.
Proof. apply filter_all. exact (html_escape_clean text). Qed.

Lemma sanitize_input_unfold (text : str) :
  sanitize_input text = strip (truncate (html_escape text)).
Proof.
  unfold sanitize_input, truncate. destruct text as [|a t]; [reflexivity|].
  simpl negb. cbv iota zeta. now rewrite re_sub_html_escape.
Qed.

Lemma length_strip (s : str) : (length (strip s) <= length s)%nat.
Proof.
  unfold strip, rstrip.
  pose proof (length_lstrip (rev (lstrip (rev s)))) as H1.
  pose proof (length_lstrip (rev s)) as H2.
  rewrite !length_rev in *. lia.
Qed.

Lemma length_truncate (s : str) : (length (truncate s) <= 4003)%nat.
Proof.
  unfold truncate, len, slice_to. destruct (4000 <? Z.of_nat (length s)) eqn:E.
  - rewrite length_app, length_firstn.
    change (length (lit "...")) with 3%nat. lia.
  - apply Z.ltb_ge in E. lia.
Qed.

Lemma truncate_short (s : str) :
  (length s <= 4000)%nat -> truncate s = s.
Proof.
  intros H. unfold truncate, len.
  destruct (4000 <? Z.of_nat (length s)) eqn:E; [|reflexivity].
  apply Z.ltb_lt in E. lia.
Qed.

Lemma truncate_long (s : str) :
  (4000 < length s)%nat -> truncate s = slice_to 4000 s ++ lit "...".
Proof.
  intros H. unfold truncate, len.
  destruct (4000 <? Z.of_nat (length s)) eqn:E; [reflexivity|].
  apply Z.ltb_ge in E. lia.
Qed.

Lemma lstrip_head (s : str) :
  match lstrip s with [] => true | c :: _ => negb (isspace c) end = true.
Proof.
  induction s as [|a s IH]; simpl; [reflexivity|].
  destruct (isspace a) eqn:E; [exact IH | now rewrite E].
Qed.

Lemma lstrip_suffix (s : str) : exists p, s = p ++ lstrip s.
Proof.
  induction s as [|a s [p IH]]; simpl; [now exists []|].
  destruct (isspace a).
  - exists (a :: p). simpl. now f_equal.
  - now exists [].
Qed.

Lemma lstrip_blank_app (p q : str) :
  blank p = true -> lstrip (p ++ q) = lstrip q.
Proof.
  unfold blank. induction p as [|a p IH]; simpl; [reflexivity|].
  intros H. apply andb_prop in H. destruct H as [Ha Hp].
  rewrite Ha. now apply IH.
Qed.

Lemma blank_plain (s : str) : blank s = true -> plain s = true.
Proof.
  unfold blank, plain. rewrite !forallb_forall. intros H c Hc.
  specialize (H c Hc). destruct (escaped c) eqn:E; [|reflexivity].
  exfalso. unfold escaped in E.
  repeat (apply orb_prop in E; destruct E as [E|E]);
    apply N.eqb_eq in E; subst c; discriminate H.
Qed.

Lemma blank_firstn (n : nat) (s : str) :
  blank s = true -> blank (firstn n s) = true.
Proof.
  unfold blank. rewrite !forallb_forall. intros H c Hc. apply H.
  rewrite <- (firstn_skipn n s). apply in_or_app. now left.
Qed.

Lemma edge_clean_strip (s : str) : edge_clean (strip s) = true.
Proof.
  unfold edge_clean, strip. apply andb_true_intro. split.
  - apply lstrip_head.
  - destruct (lstrip_suffix (rstrip s)) as [p Hp].
    destruct (rev (lstrip (rstrip s))) as [|c r] eqn:E; [reflexivity|].
    assert (K : lstrip (rev s) = c :: r ++ rev p).
    { rewrite <- (rev_involutive (lstrip (rev s))).
      fold (rstrip s). rewrite Hp at 1. rewrite rev_app_distr, E.
      reflexivity. }
    pose proof (lstrip_head (rev s)) as H. rewrite K in H. exact H.
Qed.

(** X1.  Whatever the input, the text that [sanitize_input] returns has
    at most 4003 characters: 4000 kept and the three of the mark. *)
Theorem sanitize_input_length_bound (text : str) :
  (length (sanitize_input text) <= 4003)%nat.
Proof.
  rewrite sanitize_input_unfold.
  pose proof (length_strip (truncate (html_escape text))).
  pose proof (length_truncate (html_escape text)). lia.
Qed.

(** X2.  The removal of the four characters by the regular expression
    never removes anything: [html.escape] has rewritten every one of them
    before.  So [sanitize_input] is escaping, cutting at 4000 characters
    and stripping, on every input, the empty one included. *)
Theorem sanitize_input_removal_is_idle (text : str) :
  clean (html_escape text) = true
  /\ re_sub_dangerous (html_escape text) = html_escape text
  /\ sanitize_input text = strip (truncate (html_escape text)).
Proof.
  split; [apply html_escape_clean|].
  split; [apply re_sub_html_escape | apply sanitize_input_unfold].
Qed.

(** X3.  The text that [sanitize_input] returns neither starts nor ends
    with a whitespace character. *)
Theorem sanitize_input_edge_clean (text : str) :
  edge_clean (sanitize_input text) = true.
Proof. rewrite sanitize_input_unfold. apply edge_clean_strip. Qed.

(** X4.  Every input of more than 4000 characters, plain or not, comes
    back with the mark "..." at its end: escaping never shortens a text. *)
Theorem sanitize_input_long_marked (text : str) :
  (4000 < length text)%nat ->
  endswith (sanitize_input text) (lit "...") = true.
Proof.
  intros H. rewrite sanitize_input_unfold, truncate_long.
  - destruct (strip_marked (slice_to 4000 (html_escape text))) as [p' [-> _]].
    apply endswith_app.
  - pose proof (html_escape_length text). lia.
Qed.

Lemma sanitize_input_long_marked_witness :
  endswith (sanitize_input many_lt) (lit "...") = true.
Proof. apply (sanitize_input_long_marked many_lt). vm_compute. lia. Defined.

(** X5.  On a text of at most 4000 characters that holds none of the five
    characters that [html.escape] rewrites, [sanitize_input] does what
    [strip] does and nothing more. *)
Theorem sanitize_input_short_plain (text : str) :
  plain text = true ->
  (length text <= 4000)%nat ->
  sanitize_input text = strip text.
Proof.
  intros P L. rewrite sanitize_input_unfold, (plain_html_escape _ P).
  now rewrite truncate_short.
Qed.

Lemma sanitize_input_short_plain_witness :
  sanitize_input padded = strip padded.
Proof.
  apply (sanitize_input_short_plain padded); [reflexivity | vm_compute; lia].
Defined.

(** X6.  A text of nothing but whitespace comes back empty when it has at
    most 4000 characters, and as the bare mark "..." when it has more: the
    mark is appended before the text is stripped. *)
Theorem sanitize_input_blank (text : str) :
  blank text = true ->
  sanitize_input text = if 4000 <? len text then lit "..." else [].
Proof.
  intros B. rewrite sanitize_input_unfold.
  rewrite (plain_html_escape _ (blank_plain _ B)).
  unfold truncate. destruct (4000 <? len text).
  - unfold strip.
    change (slice_to 4000 text ++ lit "...")
      with (slice_to 4000 text ++ [46%N; 46%N] ++ [46%N]).
    rewrite app_assoc, rstrip_printing by reflexivity.
    rewrite <- app_assoc. apply lstrip_blank_app.
    apply blank_firstn, B.
  - apply strip_blank, B.
Qed.

Lemma sanitize_input_blank_witness :
  sanitize_input many_spaces = lit "...".
Proof. apply (sanitize_input_blank many_spaces). vm_compute. reflexivity. Defined.

(** X7.  A text of at most 666 characters is never cut: every character
    becomes at most six, so the result is the stripped text in which each
    of the five characters is replaced by its entity. *)
Theorem sanitize_input_short_not_cut (text : str) :
  (length text <= 666)%nat ->
  sanitize_input text = strip (flat_map escape_char text).
Proof.
  intros L. rewrite sanitize_input_unfold, truncate_short.
  - now rewrite html_escape_one_pass.
  - pose proof (html_escape_length text). lia.
Qed.

Lemma sanitize_input_short_not_cut_witness :
  sanitize_input quoted = lit "say &#x27;hi&#x27; &amp; &lt;go&gt;".
Proof.
  apply (sanitize_input_short_not_cut quoted). vm_compute. lia.
Defined.

End SanitizeMore.

(** ** Further properties of [send_message] *)

Section DispatchMore.

Variable cfg : Config.
Variable w : World.

Section AttemptMore.

Variables message model : str.
Variable start_time : Z.

Let rq := request_of cfg message model.
Let body := attempt_body cfg w message model start_time.

Lemma attempt_raises_retry_line (attempt : Z) (st : State) (e : Exn) :
  api w (calls st) rq = Raises e ->
  isinstance e Exception = true ->
  attempt <> MAX_RETRIES cfg - 1 ->
  body attempt st
  = (Next, logged (EvSleep 1)
             (logged (EvLogError (log_line e attempt)) (called rq st))).
Proof.
  intros A X L. unfold body, attempt_body, Eff.bind, create.
  fold (request_of cfg message model). fold rq. rewrite A.
  rewrite first_match_clauses, X. unfold log_line.
  apply Z.eqb_neq in L.
  destruct (isinstance e APIError); rewrite L; reflexivity.
Qed.

Lemma attempt_raises_last_line (attempt : Z) (st : State) (e : Exn) :
  api w (calls st) rq = Raises e ->
  isinstance e Exception = true ->
  attempt = MAX_RETRIES cfg - 1 ->
  body attempt st
  = (Ret (failure (error_label e ++ exn_str e)
            (VSeconds (clock w (reads st) - start_time))),
     read (logged (EvLogError (log_line e attempt)) (called rq st))).
Proof.
  intros A X L. unfold body, attempt_body, Eff.bind, create.
  fold (request_of cfg message model). fold rq. rewrite A.
  rewrite first_match_clauses, X. unfold log_line, error_label.
  apply Z.eqb_eq in L.
  destruct (isinstance e APIError); rewrite L; reflexivity.
Qed.

(** An attempt whose call returns ends the run with the dictionary of
    [outcome_dict]. *)
Lemma attempt_returns (attempt : Z) (st : State) (r : ChatCompletion) :
  api w (calls st) rq = Returns r ->
  body attempt st
  = (Ret (outcome_dict model (clock w (reads st) - start_time) (Returns r)),
     read (called rq st)).
Proof.
  intros A. unfold outcome_dict. destruct (no_message r) eqn:E.
  - apply (attempt_no_message cfg w message model start_time attempt st r A E).
  - unfold no_message in E. unfold first_content.
    destruct (choices r) as [|c cs] eqn:C; [discriminate|].
    destruct (Openai.message c) as [m|] eqn:M; [|discriminate].
    apply (attempt_message cfg w message model start_time attempt st r c cs m
             A C M).
Qed.

(** The loop from attempt [i] on, [m] attempts being left after it: some
    calls raise and are retried, and the next call ends the run, with a
    dictionary or with an exception that no clause takes. *)
Lemma loop_shape :
  forall (m i : nat) (st : State),
    Z.of_nat (i + m) = MAX_RETRIES cfg - 1 ->
    exists (es : list Exn) (st' : State),
      (length es <= m)%nat
      /\ (forall (j : nat) (e : Exn),
            es !! j = Some e ->
            api w (calls st + j) rq = Raises e
            /\ isinstance e Exception = true)
      /\ (raises (api w (calls st + length es) rq) = true ->
          escapes (api w (calls st + length es) rq) = false ->
          length es = m)
      /\ for_in (List.map Z.of_nat (seq i (S m))) body st
         = (run_result model (clock w (reads st) - start_time)
              (api w (calls st + length es) rq), st')
      /\ calls st' = (calls st + S (length es))%nat
      /\ S (reads st')
         = (reads st + run_reads (api w (calls st + length es) rq))%nat
      /\ trace st'
         = trace st ++ retry_events rq es (Z.of_nat i)
             ++ final_events cfg rq (api w (calls st + length es) rq).
Proof.
  induction m as [|m IH]; intros i st Hi.
  - exists [], (snd (body (Z.of_nat i) st)).
    simpl length. rewrite Nat.add_0_r.
    split; [lia|]. split; [intros j e H; discriminate H|].
    split; [reflexivity|].
    cbn [seq List.map for_in]. unfold Eff.bind.
    destruct (api w (calls st) rq) as [r|e] eqn:A.
    + rewrite (attempt_returns _ st r A). simpl.
      repeat split; unfold run_reads; simpl; lia.
    + unfold run_result, run_reads, final_events, escapes.
      destruct (isinstance e Exception) eqn:X.
      * rewrite (attempt_raises_last_line _ st e A X) by lia. simpl.
        repeat split; [lia | lia |]. rewrite <- !app_assoc.
        replace (Z.of_nat i) with (MAX_RETRIES cfg - 1) by lia. reflexivity.
      * rewrite (attempt_raises_escapes cfg w message model start_time
                   _ st e A X). simpl.
        repeat split; lia.
  - cbn [seq List.map for_in]. unfold Eff.bind.
    destruct (api w (calls st) rq) as [r|e] eqn:A.
    + exists [], (read (called rq st)).
      simpl length. rewrite Nat.add_0_r, A.
      split; [lia|]. split; [intros j e H; discriminate H|].
      split; [discriminate|].
      rewrite (attempt_returns _ st r A). simpl.
      repeat split; unfold run_reads; simpl; lia.
    + destruct (isinstance e Exception) eqn:X.
      2:{ exists [], (called rq st).
          simpl length. rewrite Nat.add_0_r, A.
          split; [lia|]. split; [intros j e' H; discriminate H|].
          unfold run_result, run_reads, final_events, escapes. rewrite X.
          split; [discriminate|].
          rewrite (attempt_raises_escapes cfg w message model start_time
                     _ st e A X). simpl.
          repeat split; lia. }
      rewrite (attempt_raises_retry_line _ st e A X) by lia.
      set (st1 := logged (EvSleep 1)
                    (logged (EvLogError (log_line e (Z.of_nat i)))
                       (called rq st))).
      destruct (IH (S i) st1 ltac:(lia))
        as (es & st' & Hlen & Hes & Hlast & Hrun & Hc & Hr & Ht).
      assert (Hcalls : forall n, (calls st1 + n = calls st + S n)%nat)
        by (intros n; simpl; lia).
      rewrite Hcalls in Hlast, Hrun, Hr, Ht.
      exists (e :: es), st'. simpl length.
      split; [lia|]. split.
      { intros [|j] e' H.
        - rewrite Nat.add_0_r. injection H as <-. split; assumption.
        - rewrite <- Hcalls. apply Hes. exact H. }
      split; [intros H1 H2; f_equal; apply Hlast; assumption|].
      split; [exact Hrun|].
      split; [rewrite Hc; simpl; lia|]. split; [exact Hr|].
      rewrite Ht. simpl. rewrite <- !app_assoc. simpl.
      replace (Z.of_nat (S i)) with (Z.of_nat i + 1) by lia. reflexivity.
Qed.

End AttemptMore.

(** A run of [send_message] on a valid message, one attempt at least
    being allowed: the calls that raise [es] are retried, and the call
    after them ends the run. *)
Lemma send_message_run (message model : str) (st : State) :
  0 < MAX_RETRIES cfg ->
  blank message = false ->
  len message <= MAX_MESSAGE_LENGTH cfg ->
  exists (es : list Exn) (st' : State),
    Z.of_nat (length es) < MAX_RETRIES cfg
    /\ (forall (j : nat) (e : Exn),
          es !! j = Some e ->
          api w (calls st + j) (request_of cfg message model) = Raises e
          /\ isinstance e Exception = true)
    /\ (raises (api w (calls st + length es) (request_of cfg message model))
        = true ->
        escapes (api w (calls st + length es) (request_of cfg message model))
        = false ->
        Z.of_nat (S (length es)) = MAX_RETRIES cfg)
    /\ send_message cfg w message model st
       = (run_result model (clock w (S (reads st)) - clock w (reads st))
            (api w (calls st + length es) (request_of cfg message model)),
          st')
    /\ calls st' = (calls st + S (length es))%nat
    /\ reads st'
       = (reads st
          + run_reads (api w (calls st + length es)
                         (request_of cfg message model)))%nat
    /\ trace st'
       = trace st ++ retry_events (request_of cfg message model) es 0
           ++ final_events cfg (request_of cfg message model)
                (api w (calls st + length es) (request_of cfg message model)).
Proof.
  intros Hn B L.
  rewrite (send_message_valid cfg w message model st B L). unfold range.
  set (m := (Z.to_nat (MAX_RETRIES cfg) - 1)%nat).
  replace (Z.to_nat (MAX_RETRIES cfg)) with (S m) by lia.
  destruct (loop_shape message model (clock w (reads st)) m 0 (read st)
              ltac:(lia))
    as (es & st' & Hlen & Hes & Hlast & Hrun & Hc & Hr & Ht).
  exists es, st'. simpl in *.
  split; [lia|]. split; [exact Hes|].
  split; [intros H1 H2; specialize (Hlast H1 H2); lia|].
  split; [exact Hrun|]. split; [exact Hc|]. split; [lia | exact Ht].
Qed.

(** With an API that raises nothing but what derives from [Exception],
    the run ends with a dictionary, after two readings of the clock. *)
Lemma send_message_run_caught (message model : str) (st : State) :
  catchable w ->
  0 < MAX_RETRIES cfg ->
  blank message = false ->
  len message <= MAX_MESSAGE_LENGTH cfg ->
  exists (es : list Exn) (st' : State),
    Z.of_nat (length es) < MAX_RETRIES cfg
    /\ send_message cfg w message model st
       = (Return (Some (outcome_dict model
                          (clock w (S (reads st)) - clock w (reads st))
                          (api w (calls st + length es)
                             (request_of cfg message model)))), st')
    /\ calls st' = (calls st + S (length es))%nat
    /\ reads st' = S (S (reads st))
    /\ trace st'
       = trace st ++ retry_events (request_of cfg message model) es 0
           ++ final_events cfg (request_of cfg message model)
                (api w (calls st + length es) (request_of cfg message model)).
Proof.
  intros Hw Hn B L.
  destruct (send_message_run message model st Hn B L)
    as (es & st' & Hlen & _ & _ & Hrun & Hc & Hr & Ht).
  exists es, st'. split; [exact Hlen|].
  unfold run_result, run_reads, escapes in *.
  destruct (api w (calls st + length es) (request_of cfg message model))
    as [r|e] eqn:A.
  - repeat split; try assumption. lia.
  - rewrite (Hw _ _ _ A) in *. simpl in Hr.
    repeat split; try assumption. lia.
Qed.

(** The run is determined by the API: the calls that are retried are
    those before the first call that returns or raises what no clause
    takes, or all calls but the last allowed one. *)
Lemma run_prefix_unique (rq : Request) (base : nat) (es es' : list Exn) :
  (forall j e, es !! j = Some e ->
     api w (base + j) rq = Raises e /\ isinstance e Exception = true) ->
  (forall j e, es' !! j = Some e ->
     api w (base + j) rq = Raises e /\ isinstance e Exception = true) ->
  (raises (api w (base + length es) rq) = true ->
   escapes (api w (base + length es) rq) = false ->
   Z.of_nat (S (length es)) = MAX_RETRIES cfg) ->
  (raises (api w (base + length es') rq) = true ->
   escapes (api w (base + length es') rq) = false ->
   Z.of_nat (S (length es')) = MAX_RETRIES cfg) ->
  Z.of_nat (length es) < MAX_RETRIES cfg ->
  Z.of_nat (length es') < MAX_RETRIES cfg ->
  es = es'.
Proof.
  intros H H' Hl Hl' Hn Hn'.
  assert (Hlen : length es = length es').
  { destruct (Nat.lt_trichotomy (length es) (length es')) as [Lt|[Eq|Gt]];
      [|exact Eq|].
    - destruct (lookup_lt_is_Some_2 es' (length es) Lt) as [e He].
      apply H' in He. destruct He as [He Hx]. rewrite He in Hl.
      simpl in Hl. rewrite Hx in Hl. specialize (Hl eq_refl eq_refl). lia.
    - destruct (lookup_lt_is_Some_2 es (length es') Gt) as [e He].
      apply H in He. destruct He as [He Hx]. rewrite He in Hl'.
      simpl in Hl'. rewrite Hx in Hl'. specialize (Hl' eq_refl eq_refl). lia. }
  apply list_eq. intros j.
  destruct (es !! j) as [e|] eqn:E.
  - destruct (lookup_lt_is_Some_2 es' j) as [e' E'].
    { rewrite <- Hlen. apply lookup_lt_is_Some_1. eauto. }
    rewrite E'. apply H in E. apply H' in E'.
    destruct E as [E _], E' as [E' _]. congruence.
  - symmetry. apply lookup_ge_None. rewrite <- Hlen.
    apply lookup_ge_None. exact E.
Qed.

Lemma timeline_retry_events (rq : Request) (es : list Exn) (attempt : Z) :
  timeline (retry_events rq es attempt) = retries (length es) 1.
Proof.
  revert attempt. induction es as [|e es IH]; intros attempt; simpl;
    [reflexivity | now rewrite IH].
Qed.

Lemma timeline_final_events (rq : Request) (o : Outcome) :
  timeline (final_events cfg rq o) = [Call].
Proof.
  destruct o as [r|e]; [reflexivity|]. simpl.
  destruct (isinstance e Exception); reflexivity.
Qed.

Lemma requests_app (tr tr' : list Event) :
  requests (tr ++ tr') = requests tr ++ requests tr'.
Proof.
  induction tr as [|[rq|n|t] tr IH]; simpl; [reflexivity| | |];
    now rewrite IH.
Qed.

Lemma requests_retry_events (rq : Request) (es : list Exn) (attempt : Z) :
  requests (retry_events rq es attempt) = repeat rq (length es).
Proof.
  revert attempt. induction es as [|e es IH]; intros attempt; simpl;
    [reflexivity | now rewrite IH].
Qed.

Lemma requests_final_events (rq : Request) (o : Outcome) :
  requests (final_events cfg rq o) = [rq].
Proof.
  destruct o as [r|e]; [reflexivity|]. simpl.
  destruct (isinstance e Exception); reflexivity.
Qed.

Lemma outcome_dict_response_time (model : str) (t : Z) (o : Outcome) :
  outcome_dict model t o !! "response_time" = Some (VSeconds t).
Proof.
  unfold outcome_dict. destruct o as [r|e]; [|reflexivity].
  destruct (no_message r); reflexivity.
Qed.

Lemma known_error_not_specific (error : str) :
  known_error cfg error ->
  error <> lit "Rate limit exceeded. Please try again later."
  /\ error <> lit "Invalid API key. Please check your configuration.".
Proof.
  intros [->|[->|[->|[[text ->]|[text ->]]]]]; split; intros H;
    vm_compute in H; discriminate H.
Qed.

Lemma outcome_dict_error (model : str) (t : Z) (o : Outcome) :
  (outcome_dict model t o !! "success" = Some (VBool true)
   /\ outcome_dict model t o !! "error" = Some VNone)
  \/ (outcome_dict model t o !! "success" = Some (VBool false)
      /\ exists error,
           outcome_dict model t o !! "error" = Some (VStr error)
           /\ known_error cfg error).
Proof.
  unfold outcome_dict. destruct o as [r|e].
  - destruct (no_message r).
    + right. split; [reflexivity|]. eexists. split; [reflexivity|].
      unfold known_error. tauto.
    + left. split; reflexivity.
  - right. split; [reflexivity|]. eexists. split; [reflexivity|].
    unfold known_error, error_label.
    destruct (isinstance e APIError); eauto 8.
Qed.

Lemma outcome_dict_dom (model : str) (t : Z) (o : Outcome) :
  (outcome_dict model t o !! "success" = Some (VBool true)
   /\ dom (outcome_dict model t o)
      = ({[ "success"; "response"; "error"; "response_time";
            "model_used"; "tokens_used" ]} : gset string))
  \/ (outcome_dict model t o !! "success" = Some (VBool false)
      /\ dom (outcome_dict model t o)
         = ({[ "success"; "response"; "error"; "response_time" ]}
            : gset string)).
Proof.
  unfold outcome_dict. destruct o as [r|e].
  - destruct (no_message r).
    + right. split; reflexivity.
    + left. split; reflexivity.
  - right. split; reflexivity.
Qed.

End DispatchMore.

(** *** The further statements *)

Section Extras.

Variable cfg : Config.
Variable w : World.

(** X8.  With a retry count of zero or less, a valid message gets no
    dictionary at all: the loop body never runs, no call is made, and the
    method runs off its end and returns [None], after one reading of the
    clock. *)
Theorem send_message_no_attempts (message model : str) (st : State) :
  MAX_RETRIES cfg <= 0 ->
  blank message = false ->
  len message <= MAX_MESSAGE_LENGTH cfg ->
  send_message cfg w message model st = (Return None, read st).
Proof.
  intros Hn B L. rewrite (send_message_valid cfg w message model st B L).
  apply retry_loop_empty, Hn.
Qed.

(** X9.  On a valid message, one attempt at least being allowed, and
    with an API that raises nothing but what derives from [Exception],
    every run returns a dictionary, makes at most as many calls as
    attempts are allowed, pauses exactly one second between two calls,
    whatever was raised, and never pauses after the last call. *)
Theorem send_message_schedule (message model : str) (st : State) :
  catchable w ->
  0 < MAX_RETRIES cfg ->
  blank message = false ->
  len message <= MAX_MESSAGE_LENGTH cfg ->
  exists (k : nat) (d : Dict) (st' : State),
    Z.of_nat k < MAX_RETRIES cfg
    /\ send_message cfg w message model st = (Return (Some d), st')
    /\ calls st' = (calls st + S k)%nat
    /\ timeline (trace st') = timeline (trace st) ++ alternating k 1.
Proof.
  intros Hw Hn B L.
  destruct (send_message_run_caught cfg w message model st Hw Hn B L)
    as (es & st' & Hlen & Hrun & Hc & _ & Ht).
  exists (length es). eexists. exists st'.
  split; [exact Hlen|]. split; [exact Hrun|]. split; [exact Hc|].
  rewrite Ht, !timeline_app, timeline_retry_events, timeline_final_events.
  reflexivity.
Qed.

(** X10.  Whatever the message, the configuration and the API, all the
    calls of a run carry one and the same request: the model, the message
    as a single user turn, 1000 tokens at most and the configured
    timeout; and there are no more of them than attempts allowed. *)
Theorem send_message_same_request (message model : str) (st : State) :
  let st' := snd (send_message cfg w message model st) in
  exists n : nat,
    Z.of_nat n <= Z.max 0 (MAX_RETRIES cfg)
    /\ calls st' = (calls st + n)%nat
    /\ requests (trace st')
       = requests (trace st) ++ repeat (request_of cfg message model) n.
Proof.
  cbv zeta. destruct (blank message) eqn:B.
  { rewrite (send_message_blank cfg w message model st B). exists 0%nat.
    simpl. rewrite app_nil_r. repeat split; lia. }
  destruct (Z.lt_ge_cases (MAX_MESSAGE_LENGTH cfg) (len message)) as [L|L].
  { rewrite (send_message_too_long cfg w message model st B L). exists 0%nat.
    simpl. rewrite app_nil_r. repeat split; lia. }
  destruct (Z.le_gt_cases (MAX_RETRIES cfg) 0) as [Hn|Hn].
  { rewrite (send_message_valid cfg w message model st B L).
    rewrite (retry_loop_empty cfg _ _ Hn). exists 0%nat.
    simpl. rewrite app_nil_r. repeat split; lia. }
  destruct (send_message_run cfg w message model st ltac:(lia) B L)
    as (es & st' & Hlen & _ & _ & Hrun & Hc & _ & Ht).
  rewrite Hrun. exists (S (length es)). simpl snd.
  split; [lia|]. split; [exact Hc|].
  rewrite Ht, !requests_app, requests_retry_events, requests_final_events.
  rewrite <- repeat_cons. reflexivity.
Qed.

(** X11.  When the first calls raise what derives from [Exception] and
    are not the last allowed ones, and the next call returns a completion whose first choice has a
    message, [send_message] returns the success dictionary of that
    completion; the time it reports runs from before the first call, the
    pauses included; every failed call has been logged with its number and
    followed by a pause of one second. *)
Theorem send_message_succeeds_after_retries
    (message model : str) (st : State) (es : list Exn) (r : ChatCompletion)
    (c : Choice) (cs : list Choice) (m : ChatCompletionMessage) :
  blank message = false ->
  len message <= MAX_MESSAGE_LENGTH cfg ->
  Z.of_nat (length es) < MAX_RETRIES cfg ->
  (forall (j : nat) (e : Exn),
     es !! j = Some e ->
     api w (calls st + j) (request_of cfg message model) = Raises e
     /\ isinstance e Exception = true) ->
  api w (calls st + length es) (request_of cfg message model) = Returns r ->
  choices r = c :: cs ->
  Openai.message c = Some m ->
  exists st',
    send_message cfg w message model st
    = (Return (Some (success (content m)
                       (clock w (S (reads st)) - clock w (reads st))
                       model (reported_tokens r))), st')
    /\ calls st' = (calls st + S (length es))%nat
    /\ trace st'
       = trace st ++ retry_events (request_of cfg message model) es 0
           ++ [EvCreate (request_of cfg message model)].
Proof.
  intros B L Hlen Hes A C M.
  destruct (send_message_run cfg w message model st ltac:(lia) B L)
    as (es' & st' & Hlen' & Hes' & Hlast' & Hrun & Hc & _ & Ht).
  assert (E : es' = es).
  { apply (run_prefix_unique cfg w (request_of cfg message model) (calls st));
      try assumption.
    rewrite A. discriminate. }
  subst es'. rewrite A in Hrun, Ht. exists st'.
  split; [|split; assumption].
  rewrite Hrun. unfold run_result, outcome_dict, no_message, first_content.
  rewrite C, M. reflexivity.
Qed.

(** X12.  When every allowed attempt raises, whatever the classes that
    derive from [Exception], [send_message] makes every attempt and returns a failure whose error
    is the text of the last exception behind "API Error: " if its class
    derives from [APIError] and behind "Unexpected error: " if not; every
    attempt is logged with its number, the last one too, and is followed
    by a pause of one second unless it is the last. *)
Theorem send_message_retries_exhausted
    (message model : str) (st : State) (es : list Exn) (e : Exn) :
  blank message = false ->
  len message <= MAX_MESSAGE_LENGTH cfg ->
  Z.of_nat (S (length es)) = MAX_RETRIES cfg ->
  (forall (j : nat) (e' : Exn),
     (es ++ [e]) !! j = Some e' ->
     api w (calls st + j) (request_of cfg message model) = Raises e'
     /\ isinstance e' Exception = true) ->
  exists st',
    send_message cfg w message model st
    = (Return (Some (failure (error_label e ++ exn_str e)
                       (VSeconds (clock w (S (reads st))
                                  - clock w (reads st))))), st')
    /\ calls st' = (calls st + S (length es))%nat
    /\ trace st'
       = trace st ++ retry_events (request_of cfg message model) es 0
           ++ [EvCreate (request_of cfg message model);
               EvLogError (log_line e (MAX_RETRIES cfg - 1))].
Proof.
  intros B L Hlen Hall.
  assert (A : api w (calls st + length es) (request_of cfg message model)
              = Raises e /\ isinstance e Exception = true).
  { apply Hall. now apply list_lookup_middle. }
  destruct A as [A X].
  destruct (send_message_run cfg w message model st ltac:(lia) B L)
    as (es' & st' & Hlen' & Hes' & Hlast' & Hrun & Hc & _ & Ht).
  assert (E : es' = es).
  { apply (run_prefix_unique cfg w (request_of cfg message model) (calls st));
      try assumption; try lia.
    intros j e' H. apply Hall. rewrite lookup_app_l; [exact H|].
    apply lookup_lt_is_Some_1. eauto. }
  subst es'. rewrite A in Hrun, Ht. exists st'.
  unfold run_result, final_events in *. rewrite X in *.
  split; [exact Hrun|]. split; [exact Hc | exact Ht].
Qed.

(** X13.  Whatever the message, the configuration and the API,
    [send_message] lets out no exception but one that the API raised and
    whose class does not derive from [Exception]; it returns [None] only
    when no attempt is allowed, and otherwise returns either a success
    without error or a failure whose error is one of five texts: the
    empty message, the length limit, the empty response, "API Error: ..."
    or "Unexpected error: ...".  The texts of the rate limit and of the
    invalid key are never returned. *)
Theorem send_message_error_texts (message model : str) (st : State) :
  match fst (send_message cfg w message model st) with
  | Return (Some d) =>
      (d !! "success" = Some (VBool true) /\ d !! "error" = Some VNone)
      \/ (d !! "success" = Some (VBool false)
          /\ exists error : str,
               d !! "error" = Some (VStr error)
               /\ known_error cfg error
               /\ error <> lit "Rate limit exceeded. Please try again later."
               /\ error
                  <> lit "Invalid API key. Please check your configuration.")
  | Return None => MAX_RETRIES cfg <= 0
  | Raise e =>
      isinstance e Exception = false
      /\ exists k : nat, api w k (request_of cfg message model) = Raises e
  end.
Proof.
  assert (K : forall d : Dict,
            d !! "success" = Some (VBool false) ->
            (exists error, d !! "error" = Some (VStr error)
                           /\ known_error cfg error) ->
            (d !! "success" = Some (VBool true) /\ d !! "error" = Some VNone)
            \/ (d !! "success" = Some (VBool false)
                /\ exists error : str,
                     d !! "error" = Some (VStr error)
                     /\ known_error cfg error
                     /\ error
                        <> lit "Rate limit exceeded. Please try again later."
                     /\ error
                        <> lit "Invalid API key. Please check your configuration.")).
  { intros d Hs (error & He & Hk). right. split; [exact Hs|].
    exists error. split; [exact He|]. split; [exact Hk|].
    apply (known_error_not_specific cfg), Hk. }
  destruct (blank message) eqn:B.
  { rewrite (send_message_blank cfg w message model st B). simpl fst.
    apply K; [reflexivity|]. eexists. split; [reflexivity|].
    unfold known_error. tauto. }
  destruct (Z.lt_ge_cases (MAX_MESSAGE_LENGTH cfg) (len message)) as [L|L].
  { rewrite (send_message_too_long cfg w message model st B L). simpl fst.
    apply K; [reflexivity|]. eexists. split; [reflexivity|].
    unfold known_error. tauto. }
  destruct (Z.le_gt_cases (MAX_RETRIES cfg) 0) as [Hn|Hn].
  { rewrite (send_message_valid cfg w message model st B L).
    rewrite (retry_loop_empty cfg _ _ Hn). exact Hn. }
  destruct (send_message_run cfg w message model st ltac:(lia) B L)
    as (es & st' & _ & _ & _ & Hrun & _).
  rewrite Hrun. simpl fst.
  assert (D : forall o,
            match Return (Some (outcome_dict model
                                  (clock w (S (reads st))
                                   - clock w (reads st)) o)) with
            | Return (Some d) =>
                (d !! "success" = Some (VBool true)
                 /\ d !! "error" = Some VNone)
                \/ (d !! "success" = Some (VBool false)
                    /\ exists error : str,
                         d !! "error" = Some (VStr error)
                         /\ known_error cfg error
                         /\ error
                            <> lit "Rate limit exceeded. Please try again later."
                         /\ error
                            <> lit "Invalid API key. Please check your configuration.")
            | Return None => MAX_RETRIES cfg <= 0
            | Raise e =>
                isinstance e Exception = false
                /\ exists k : nat,
                     api w k (request_of cfg message model) = Raises e
            end).
  { intros o.
    destruct (outcome_dict_error cfg model
                (clock w (S (reads st)) - clock w (reads st)) o)
      as [H|[Hs He]].
    - left. exact H.
    - apply K; assumption. }
  unfold run_result.
  destruct (api w (calls st + length es) (request_of cfg message model))
    as [r|e] eqn:A; [apply D|].
  destruct (isinstance e Exception) eqn:X; [apply D|].
  split; [exact X | eauto].
Qed.

(** X14.  [test_connection] sends a fixed message of 33 characters.
    Under a length limit below 33 it fails with the error of the length
    check and never contacts the API; under a limit of 33 or more, one
    attempt at least being allowed and the API raising nothing but what
    derives from [Exception], it does contact the API and returns a
    dictionary, with the default model and that message in every call. *)
Theorem test_connection_limit (st : State) :
  (MAX_MESSAGE_LENGTH cfg < 33 ->
   test_connection cfg w st
   = (Return (Some (failure (too_long_error cfg) (VInt 0))), st))
  /\ (33 <= MAX_MESSAGE_LENGTH cfg ->
      0 < MAX_RETRIES cfg ->
      catchable w ->
      exists (k : nat) (d : Dict) (st' : State),
        test_connection cfg w st = (Return (Some d), st')
        /\ calls st' = (calls st + S k)%nat
        /\ requests (trace st')
           = requests (trace st)
             ++ repeat (request_of cfg connection_test default_model) (S k)).
Proof.
  change (test_connection cfg w)
    with (send_message cfg w connection_test default_model).
  split.
  - intros L. apply send_message_too_long; [reflexivity | exact L].
  - intros L Hn Hw.
    destruct (send_message_run_caught cfg w connection_test default_model st
                Hw Hn eq_refl L)
      as (es & st' & _ & Hrun & Hc & _ & Ht).
    exists (length es). eexists. exists st'.
    split; [exact Hrun|]. split; [exact Hc|].
    rewrite Ht, !requests_app, requests_retry_events,
      (requests_final_events cfg).
    rewrite <- repeat_cons. reflexivity.
Qed.

(** X15.  On a valid message, one attempt at least being allowed and
    the API raising nothing but what derives from [Exception], the
    clock is read twice in a run, before the first call and after the
    last one, and the response time of the dictionary is the second
    reading minus the first: it covers every attempt and every pause. *)
Theorem send_message_elapsed_time (message model : str) (st : State) :
  catchable w ->
  0 < MAX_RETRIES cfg ->
  blank message = false ->
  len message <= MAX_MESSAGE_LENGTH cfg ->
  exists (d : Dict) (st' : State),
    send_message cfg w message model st = (Return (Some d), st')
    /\ reads st' = S (S (reads st))
    /\ d !! "response_time"
       = Some (VSeconds (clock w (S (reads st)) - clock w (reads st))).
Proof.
  intros Hw Hn B L.
  destruct (send_message_run_caught cfg w message model st Hw Hn B L)
    as (es & st' & _ & Hrun & _ & Hr & _).
  eexists. exists st'. split; [exact Hrun|]. split; [exact Hr|].
  apply outcome_dict_response_time.
Qed.

(** X16.  A dictionary returned with success true has the six keys
    success, response, error, response_time, model_used and tokens_used;
    one returned with success false has the first four only, so that
    model_used and tokens_used are missing from every failure. *)
Theorem send_message_result_keys (message model : str) (st : State) :
  match fst (send_message cfg w message model st) with
  | Return (Some d) =>
      (d !! "success" = Some (VBool true)
       /\ dom d = ({[ "success"; "response"; "error"; "response_time";
                      "model_used"; "tokens_used" ]} : gset string))
      \/ (d !! "success" = Some (VBool false)
          /\ dom d = ({[ "success"; "response"; "error"; "response_time" ]}
                      : gset string))
  | _ => True
  end.
Proof.
  destruct (blank message) eqn:B.
  { rewrite (send_message_blank cfg w message model st B). simpl fst.
    right. split; reflexivity. }
  destruct (Z.lt_ge_cases (MAX_MESSAGE_LENGTH cfg) (len message)) as [L|L].
  { rewrite (send_message_too_long cfg w message model st B L). simpl fst.
    right. split; reflexivity. }
  destruct (Z.le_gt_cases (MAX_RETRIES cfg) 0) as [Hn|Hn].
  { rewrite (send_message_valid cfg w message model st B L).
    rewrite (retry_loop_empty cfg _ _ Hn). exact I. }
  destruct (send_message_run cfg w message model st ltac:(lia) B L)
    as (es & st' & _ & _ & _ & Hrun & _).
  rewrite Hrun. simpl fst. unfold run_result.
  destruct (api w (calls st + length es) (request_of cfg message model))
    as [r|e]; [apply outcome_dict_dom|].
  destruct (isinstance e Exception); [apply outcome_dict_dom | exact I].
Qed.

(** X17.  When the first calls raise what derives from [Exception] and
    are retried, and the next call raises an exception whose class does
    not derive from [Exception], that exception leaves [send_message] at
    once: no clause takes it, it is not logged, no further call is made
    and the clock is not read again. *)
Theorem send_message_exception_escapes
    (message model : str) (st : State) (es : list Exn) (e : Exn) :
  blank message = false ->
  len message <= MAX_MESSAGE_LENGTH cfg ->
  Z.of_nat (length es) < MAX_RETRIES cfg ->
  (forall (j : nat) (e' : Exn),
     es !! j = Some e' ->
     api w (calls st + j) (request_of cfg message model) = Raises e'
     /\ isinstance e' Exception = true) ->
  api w (calls st + length es) (request_of cfg message model) = Raises e ->
  isinstance e Exception = false ->
  exists st',
    send_message cfg w message model st = (Raise e, st')
    /\ calls st' = (calls st + S (length es))%nat
    /\ reads st' = S (reads st)
    /\ trace st'
       = trace st ++ retry_events (request_of cfg message model) es 0
           ++ [EvCreate (request_of cfg message model)].
Proof.
  intros B L Hlen Hes A X.
  destruct (send_message_run cfg w message model st ltac:(lia) B L)
    as (es' & st' & Hlen' & Hes' & Hlast' & Hrun & Hc & Hr & Ht).
  assert (E : es' = es).
  { apply (run_prefix_unique cfg w (request_of cfg message model) (calls st));
      try assumption.
    rewrite A. simpl. rewrite X. discriminate. }
  subst es'. rewrite A in Hrun, Hr, Ht. exists st'.
  unfold run_result, run_reads, escapes, final_events in *. rewrite X in *.
  simpl in Hr.
  split; [exact Hrun|]. split; [exact Hc|]. split; [lia | exact Ht].
Qed.

End Extras.

(** *** The further statements at concrete inputs *)

Section ExtrasEvaluations.

Lemma world_flaky_catchable : catchable world_flaky.
Proof.
  intros [|[|k]] rq e H; simpl in H; try discriminate H;
    injection H as <-; reflexivity.
Defined.

Lemma world_greeting_catchable : catchable world_greeting.
Proof. intros k rq e H. discriminate H. Defined.

Lemma send_message_no_attempts_witness :
  send_message cfg_no_retry world_greeting hi default_model initial
  = (Return None, read initial).
Proof.
  apply (send_message_no_attempts cfg_no_retry world_greeting hi default_model
           initial).
  - vm_compute. discriminate.
  - reflexivity.
  - vm_compute. discriminate.
Defined.

Lemma send_message_schedule_witness :
  exists (k : nat) (d : Dict) (st' : State),
    Z.of_nat k < MAX_RETRIES cfg3
    /\ send_message cfg3 world_flaky hi default_model initial
       = (Return (Some d), st')
    /\ calls st' = (calls initial + S k)%nat
    /\ timeline (trace st') = timeline (trace initial) ++ alternating k 1.
Proof.
  apply (send_message_schedule cfg3 world_flaky hi default_model initial).
  - exact world_flaky_catchable.
  - reflexivity.
  - reflexivity.
  - vm_compute. discriminate.
Defined.

Lemma send_message_succeeds_after_retries_witness :
  exists st',
    send_message cfg3 world_flaky hi default_model initial
    = (Return (Some (success (Some (lit "Hello!")) (ticking 1 - ticking 0)
                       default_model (Some 12))), st')
    /\ calls st' = 3%nat
    /\ trace st'
       = retry_events (request_of cfg3 hi default_model)
           [timed_out; boom] 0
         ++ [EvCreate (request_of cfg3 hi default_model)].
Proof.
  apply (send_message_succeeds_after_retries cfg3 world_flaky hi default_model
           initial [timed_out; boom] greeting
           {| message := Some {| content := Some (lit "Hello!") |} |} []
           {| content := Some (lit "Hello!") |}).
  - reflexivity.
  - vm_compute. discriminate.
  - reflexivity.
  - intros [|[|j]] e H; simpl in H; try discriminate H;
      injection H as <-; split; reflexivity.
  - reflexivity.
  - reflexivity.
  - reflexivity.
Defined.

Lemma send_message_retries_exhausted_witness :
  exists st',
    send_message cfg3 world_broken hi default_model initial
    = (Return (Some (failure (lit "Unexpected error: boom")
                       (VSeconds (ticking 1 - ticking 0)))), st')
    /\ calls st' = 3%nat
    /\ trace st'
       = retry_events (request_of cfg3 hi default_model)
           [slow_down; boom] 0
         ++ [EvCreate (request_of cfg3 hi default_model);
             EvLogError (lit "Unexpected error (attempt 3): boom")].
Proof.
  apply (send_message_retries_exhausted cfg3 world_broken hi default_model
           initial [slow_down; boom] boom).
  - reflexivity.
  - vm_compute. discriminate.
  - reflexivity.
  - intros [|[|[|j]]] e H; simpl in H; try discriminate H;
      injection H as <-; split; reflexivity.
Defined.

Lemma test_connection_limit_witness :
  test_connection cfg_tiny world_greeting initial
  = (Return (Some (failure (lit "Message too long. Maximum 10 characters allowed.")
                     (VInt 0))), initial)
  /\ exists (k : nat) (d : Dict) (st' : State),
       test_connection cfg3 world_greeting initial = (Return (Some d), st')
       /\ calls st' = (calls initial + S k)%nat
       /\ requests (trace st')
          = requests (trace initial)
            ++ repeat (request_of cfg3 connection_test default_model) (S k).
Proof.
  split.
  - apply (proj1 (test_connection_limit cfg_tiny world_greeting initial)).
    reflexivity.
  - apply (proj2 (test_connection_limit cfg3 world_greeting initial)).
    + vm_compute. discriminate.
    + reflexivity.
    + exact world_greeting_catchable.
Defined.

Lemma send_message_elapsed_time_witness :
  exists (d : Dict) (st' : State),
    send_message cfg3 world_flaky hi default_model initial
    = (Return (Some d), st')
    /\ reads st' = 2%nat
    /\ d !! "response_time" = Some (VSeconds (ticking 1 - ticking 0)).
Proof.
  apply (send_message_elapsed_time cfg3 world_flaky hi default_model initial).
  - exact world_flaky_catchable.
  - reflexivity.
  - reflexivity.
  - vm_compute. discriminate.
Defined.

Lemma send_message_exception_escapes_witness :
  exists st',
    send_message cfg3 world_interrupted_second hi default_model initial
    = (Raise interrupt, st')
    /\ calls st' = 2%nat
    /\ reads st' = 1%nat
    /\ trace st'
       = retry_events (request_of cfg3 hi default_model) [slow_down] 0
         ++ [EvCreate (request_of cfg3 hi default_model)].
Proof.
  apply (send_message_exception_escapes cfg3 world_interrupted_second hi
           default_model initial [slow_down] interrupt).
  - reflexivity.
  - vm_compute. discriminate.
  - reflexivity.
  - intros [|j] e H; simpl in H; try discriminate H;
      injection H as <-; split; reflexivity.
  - reflexivity.
  - reflexivity.
Defined.

End ExtrasEvaluations.
